(** * NinjaDroid: the command-line driver [ninjadroid.py]

    A shallow embedding of the driver script of NinjaDroid and of the
    decoding contracts it relies on.

    - Python [str] values are sequences of Unicode code points: [pystr].
    - The driver's effects (logging, printing, the file system, the APK
      parser and the use-case collaborators) are threaded through a small
      state/exception/trace monad [M].
    - Code that the driver imports but that lives in other modules
      (the [APK] class, the use cases, [os], [json]) is an interface,
      [Externals], over which every statement is quantified. *)

From Stdlib Require Import String Ascii Strings.Byte NArith ZArith Bool Lia List.
From Stdlib Require Import DecimalString.
Import ListNotations.

Set Implicit Arguments.

(* ===================================================================== *)
(** ** Python strings *)
(* ===================================================================== *)

(** A Python [str] is a sequence of code points. *)
Definition pystr := list N.

(** An ASCII literal of the source, as a [pystr]. *)
Definition str (s : string) : pystr :=
  map N_of_ascii (list_ascii_of_string s).

(** [a == b] on strings. *)
Definition pystr_eqb (a b : pystr) : bool :=
  if list_eq_dec N.eq_dec a b then true else false.

(** [s[0:-k]]: everything but the last [k] code points; the empty string
    when [s] has at most [k] of them (Python clamps the negative bound). *)
Definition slice_drop_last (k : nat) (s : pystr) : pystr :=
  firstn (length s - k) s.

Module PosixPath.

Definition sep : N := 47%N.

(** [basename_from acc p]: [acc] is what follows the last separator met
    so far. *)
Fixpoint basename_from (acc p : pystr) : pystr :=
  match p with
  | [] => acc
  | c :: rest =>
      if N.eqb c sep then basename_from rest rest
      else basename_from acc rest
  end.

(** [os.path.basename(p)] is [p[p.rfind('/') + 1:]]. *)
Definition basename (p : pystr) : pystr := basename_from p p.

End PosixPath.

Module Re.

(** Lower-casing as the regex engine applies it to a subject character
    under [re.IGNORECASE] on a [str] pattern.  The table is restricted
    to the code points whose lower case is an ASCII letter: the ASCII
    capitals and the Kelvin sign U+212A (lower case [k]); U+0130 lowers
    to [i].  Every other code point is left alone, which is exact as far
    as matching an ASCII pattern goes. *)
Definition tolower (c : N) : N :=
  if (65 <=? c)%N && (c <=? 90)%N then (c + 32)%N
  else if (c =? 8490)%N then 107%N
  else if (c =? 304)%N then 105%N
  else c.

(** A literal pattern character (lower case or uncased) against a
    subject character, ignoring case. *)
Definition char_match_ic (p c : N) : bool := N.eqb (tolower c) p.

(** The literal pattern [pat] matches at the start of [s]. *)
Fixpoint match_here (pat s : pystr) : bool :=
  match pat, s with
  | [], _ => true
  | _ :: _, [] => false
  | p :: pat', c :: s' => char_match_ic p c && match_here pat' s'
  end.

(** [re.search(pat, s, re.IGNORECASE)] for a literal pattern, as a truth
    value: is there a position of [s] where [pat] matches? *)
Fixpoint search_ic (pat s : pystr) : bool :=
  match_here pat s ||
  match s with
  | [] => false
  | _ :: s' => search_ic pat s'
  end.

(** The regular expression ["\\.apk"]: an escaped dot, then [apk]. *)
Definition dot_apk : pystr := str ".apk".

End Re.

(** [get_apk_filename_without_extension] (lines 120-124). *)
Definition get_apk_filename_without_extension (filepath : pystr) : pystr :=
  let filename := PosixPath.basename filepath in
  if Re.search_ic Re.dot_apk filepath
  then slice_drop_last 4 filename
  else filename.

(** [pat] occurs in [s] up to case: some window of [s] matches it
    character by character. *)
Definition occurs_ic (pat s : pystr) : Prop :=
  exists pre mid post,
    s = pre ++ mid ++ post /\
    Forall2 (fun p c => Re.char_match_ic p c = true) pat mid.

(* ===================================================================== *)
(** ** Exceptions, outcomes and the outside world *)
(* ===================================================================== *)

(** The exceptions the driver can meet.  [APKParsingError] derives from
    [ParsingError]; [ParsingError] stands for an instance of that class
    which is not an [APKParsingError]. *)
Inductive exn : Type :=
| APKParsingError
| ParsingError
| SystemExit (code : Z)
| OtherException (id : N).

Definition isinstance_APKParsingError (e : exn) : bool :=
  match e with APKParsingError => true | _ => false end.

Definition isinstance_ParsingError (e : exn) : bool :=
  match e with APKParsingError | ParsingError => true | _ => false end.

(** How a call ends: it returns a value or raises. *)
Inductive outcome (A : Type) : Type :=
| Ret (a : A)
| Raise (e : exn).
Arguments Ret {A} a.
Arguments Raise {A} e.

(** Levels of the [logging] module. *)
Inductive level : Type := DEBUG | INFO | WARNING | ERROR.

Definition level_value (l : level) : Z :=
  match l with DEBUG => 10 | INFO => 20 | WARNING => 30 | ERROR => 40 end.

Definition level_name (l : level) : pystr :=
  match l with
  | DEBUG => str "DEBUG" | INFO => str "INFO"
  | WARNING => str "WARNING" | ERROR => str "ERROR"
  end.

(** What [argparse] writes before it exits: the version string or the
    help on the standard output, the usage with an error on the standard
    error. *)
Inductive argparse_message : Type :=
| VersionMessage (text : pystr)
| HelpMessage
| RequiredMissing
| Unrecognized (extras : list pystr).

(** What the driver imports: the APK parser, the six use cases, and the
    library calls that touch the world.  [Ext] is the state of that world
    (file system, standard streams, child processes); the records of the
    logger are kept in the trace. *)
Class Externals : Type := {
  Ext : Type;
  APK : Type;
  Mapping : Type;
  (** [APK(filepath, string_processing, logger)] *)
  APK_init : pystr -> bool -> Ext -> outcome APK * Ext;
  (** [apk.dump()] *)
  APK_dump : APK -> Ext -> outcome Mapping * Ext;
  (** [json.dumps(m, sort_keys=True, ensure_ascii=False, indent=4)] *)
  json_dumps : Mapping -> outcome pystr;
  (** [print(text)] *)
  builtin_print : pystr -> Ext -> outcome unit * Ext;
  (** the write of a message of [argparse] on its stream *)
  argparse_write : argparse_message -> Ext -> outcome unit * Ext;
  (** [os.path.exists(path)] *)
  os_path_exists : pystr -> Ext -> bool;
  (** [os.makedirs(path)] *)
  os_makedirs : pystr -> Ext -> outcome unit * Ext;
  (** [LaunchApkTool(logger).execute(input_filepath, output_directory)] *)
  LaunchApkTool_execute : pystr -> pystr -> Ext -> outcome unit * Ext;
  (** [LaunchDex2Jar(logger).execute(input_filepath, input_filename,
      output_directory)] *)
  LaunchDex2Jar_execute :
    pystr -> pystr -> pystr -> Ext -> outcome unit * Ext;
  (** [ExtractCertificateFile(logger).execute(apk, output_directory)] *)
  ExtractCertificateFile_execute : APK -> pystr -> Ext -> outcome unit * Ext;
  (** [ExtractDexFile(logger).execute(apk, output_directory)] *)
  ExtractDexFile_execute : APK -> pystr -> Ext -> outcome unit * Ext;
  (** [GetApkInfoInHtml(logger).execute(apk, input_filename,
      output_directory)] *)
  GetApkInfoInHtml_execute :
    APK -> pystr -> pystr -> Ext -> outcome unit * Ext;
  (** [GetApkInfoInJson(logger).execute(apk, input_filename,
      output_directory)] *)
  GetApkInfoInJson_execute :
    APK -> pystr -> pystr -> Ext -> outcome unit * Ext
}.

(** What the driver does to the world, in the order it does it. *)
Inductive event `{Externals} : Type :=
| EvLog (l : level) (message : pystr)
| EvArgparseWrite (message : argparse_message)
| EvParse (filepath : pystr) (string_processing : bool)
| EvDump (apk : APK)
| EvPrint (text : pystr)
| EvExists (path : pystr)
| EvMakedirs (path : pystr)
| EvApkTool (input_filepath output_directory : pystr)
| EvDex2Jar (input_filepath input_filename output_directory : pystr)
| EvExtractCertificateFile (apk : APK) (output_directory : pystr)
| EvExtractDexFile (apk : APK) (output_directory : pystr)
| EvHtml (apk : APK) (input_filename output_directory : pystr)
| EvJson (apk : APK) (input_filename output_directory : pystr).

(** The interpreter's state: the world, and the level of the logger
    ["NinjaDroid"] ([logging.basicConfig(level=logging.INFO)] makes it
    [INFO] when the script starts). *)
Record state `{Externals} : Type := {
  world : Ext;
  logger_level : level
}.

(* ===================================================================== *)
(** ** The monad of the driver *)
(* ===================================================================== *)

(** A computation runs from a state to an outcome, a final state and the
    events it caused.  The state survives a raised exception. *)
Definition M `{Externals} (A : Type) : Type :=
  state -> outcome A * state * list event.

Definition ret `{Externals} {A} (a : A) : M A :=
  fun s => (Ret a, s, []).

Definition bind `{Externals} {A B} (m : M A) (k : A -> M B) : M B :=
  fun s =>
    match m s with
    | (Ret a, s1, ev1) =>
        match k a s1 with
        | (r, s2, ev2) => (r, s2, ev1 ++ ev2)
        end
    | (Raise e, s1, ev1) => (Raise e, s1, ev1)
    end.

Definition raise `{Externals} {A} (e : exn) : M A :=
  fun s => (Raise e, s, []).

(** [try: m except ...: h], where [h] returns [None] for an exception no
    clause catches. *)
Definition try_except `{Externals} {A}
    (m : M A) (h : exn -> option (M A)) : M A :=
  fun s =>
    match m s with
    | (Ret a, s1, ev1) => (Ret a, s1, ev1)
    | (Raise e, s1, ev1) =>
        match h e with
        | Some k =>
            match k s1 with
            | (r, s2, ev2) => (r, s2, ev1 ++ ev2)
            end
        | None => (Raise e, s1, ev1)
        end
    end.

(** A call into the world: the event is recorded, then the callee runs. *)
Definition call `{Externals} {A}
    (ev : event) (f : Ext -> outcome A * Ext) : M A :=
  fun s =>
    match f (world s) with
    | (r, w) => (r, {| world := w; logger_level := logger_level s |}, [ev])
    end.

(** A library call that may raise but leaves the world alone. *)
Definition pure_call `{Externals} {A} (r : outcome A) : M A :=
  fun s => (r, s, []).

Declare Scope driver_scope.
Delimit Scope driver_scope with driver.
Notation "x <- m ;; k" := (bind m (fun x => k))
  (at level 61, m at next level, right associativity) : driver_scope.
Notation "m ;; k" := (bind m (fun _ => k))
  (at level 61, right associativity) : driver_scope.
Local Open Scope driver_scope.

(* ===================================================================== *)
(** ** Logging *)
(* ===================================================================== *)

(** [logger.setLevel(l)] *)
Definition logger_setLevel `{Externals} (l : level) : M unit :=
  fun s => (Ret tt, {| world := world s; logger_level := l |}, []).

(** [logger.log(l, message)]: the record is emitted when [l] is enabled. *)
Definition logger_log `{Externals} (l : level) (message : pystr) : M unit :=
  fun s =>
    if (level_value (logger_level s) <=? level_value l)%Z
    then (Ret tt, s, [EvLog l message])
    else (Ret tt, s, []).

Definition logger_debug `{Externals} := logger_log DEBUG.
Definition logger_info `{Externals} := logger_log INFO.
Definition logger_error `{Externals} := logger_log ERROR.

(** The line a record makes on the error stream, after the format given
    to [logging.basicConfig] (lines 32-35). *)
Definition format_record (l : level) (message : pystr) : pystr :=
  str "  >> NinjaDroid: [" ++ level_name l ++ str "] " ++ message.

(* ===================================================================== *)
(** ** The command line *)
(* ===================================================================== *)

Definition VERSION : pystr := str "3.0".

(** The command line as [argparse] reads it: the occurrences of the
    declared arguments, in order.  [Positional] is a string taken as a
    positional; [OptExtract v] is [-e]/[--extract], with [v = None] when
    no value follows it; [OptNoStringProcessing] is
    [-ns]/[--no-string-processing]; [OptVerbose] is [-v]/[--verbose];
    [OptVersion] is [-V]/[--version]; [OptHelp] is [-h]/[--help].  How
    [argparse] splits the strings of [sys.argv] into these occurrences
    is the library's business and is not modelled. *)
Inductive cli_arg : Type :=
| Positional (value : pystr)
| OptExtract (value : option pystr)
| OptNoStringProcessing
| OptVerbose
| OptVersion
| OptHelp.

(** The [Namespace] [parse_args] returns. *)
Record Namespace : Type := {
  target : pystr;
  target_output_directory : option pystr;
  no_string_processing : bool;
  verbose : bool
}.

(** The attributes under construction, with the positional strings met. *)
Record parse_acc : Type := {
  acc_positionals : list pystr;
  acc_target_output_directory : option pystr;
  acc_no_string_processing : bool;
  acc_verbose : bool
}.

(** Defaults: [store] gives [None], [store_false] gives [True],
    [store_true] gives [False]. *)
Definition parse_defaults : parse_acc :=
  {| acc_positionals := [];
     acc_target_output_directory := None;
     acc_no_string_processing := true;
     acc_verbose := false |}.

(** One occurrence, by the action declared for it (lines 68-104). *)
Definition take_action (a : cli_arg) (acc : parse_acc) : option parse_acc :=
  match a with
  | Positional v =>
      Some {| acc_positionals := acc_positionals acc ++ [v];
              acc_target_output_directory := acc_target_output_directory acc;
              acc_no_string_processing := acc_no_string_processing acc;
              acc_verbose := acc_verbose acc |}
  | OptExtract v =>
      (* nargs="?", const="./", action="store" *)
      let d := match v with Some d => d | None => str "./" end in
      Some {| acc_positionals := acc_positionals acc;
              acc_target_output_directory := Some d;
              acc_no_string_processing := acc_no_string_processing acc;
              acc_verbose := acc_verbose acc |}
  | OptNoStringProcessing =>
      (* action="store_false" *)
      Some {| acc_positionals := acc_positionals acc;
              acc_target_output_directory := acc_target_output_directory acc;
              acc_no_string_processing := false;
              acc_verbose := acc_verbose acc |}
  | OptVerbose =>
      (* action="store_true" *)
      Some {| acc_positionals := acc_positionals acc;
              acc_target_output_directory := acc_target_output_directory acc;
              acc_no_string_processing := acc_no_string_processing acc;
              acc_verbose := true |}
  | OptVersion | OptHelp =>
      (* action="version" and the implicit help: print and exit *)
      None
  end.

(** What the action of an occurrence that exits writes: the version
    action writes [version="NinjaDroid " + VERSION] (lines 98-104), the
    help action the help. *)
Definition exit_message (a : cli_arg) : argparse_message :=
  match a with
  | OptVersion => VersionMessage (str "NinjaDroid " ++ VERSION)
  | _ => HelpMessage
  end.

(** The message is written, then [parser.exit(code)] raises
    [SystemExit]. *)
Definition parser_exit `{Externals} {A}
    (message : argparse_message) (code : Z) : M A :=
  call (EvArgparseWrite message) (argparse_write message) ;;
  raise (SystemExit code).

(** The occurrences are consumed from left to right; the version and help
    actions leave with status 0 where they stand. *)
Fixpoint consume_args `{Externals} (argv : list cli_arg) (acc : parse_acc)
  : M parse_acc :=
  match argv with
  | [] => ret acc
  | a :: rest =>
      match take_action a acc with
      | Some acc' => consume_args rest acc'
      | None => parser_exit (exit_message a) 0
      end
  end.

(** [get_args] (lines 56-105): exactly one positional is the target;
    with none the target is missing, with more the others are not
    recognised, and [parse_args] reports the usage error and leaves with
    status 2. *)
Definition get_args `{Externals} (argv : list cli_arg) : M Namespace :=
  acc <- consume_args argv parse_defaults ;;
  match acc_positionals acc with
  | [t] =>
      ret {| target := t;
             target_output_directory := acc_target_output_directory acc;
             no_string_processing := acc_no_string_processing acc;
             verbose := acc_verbose acc |}
  | [] => parser_exit RequiredMissing 2
  | _ :: extras => parser_exit (Unrecognized extras) 2
  end.

(* ===================================================================== *)
(** ** The driver *)
(* ===================================================================== *)

(** The three messages of [read_target_file], with the path in place of
    [%s]. *)
Definition reading_message (filepath : pystr) : pystr :=
  str "Reading " ++ filepath ++ str "...".

Definition not_an_apk_message (filepath : pystr) : pystr :=
  str "The target file ('" ++ filepath ++ str "') must be an APK package!".

Definition not_readable_message (filepath : pystr) : pystr :=
  str "The target file ('" ++ filepath
    ++ str "') must be an existing, readable file!".

(** [read_target_file] (lines 108-117).  The handler tries the clause
    for [APKParsingError] first, then the one for [ParsingError]; any
    other exception goes on to the caller. *)
Definition read_target_file `{Externals}
    (filepath : pystr) (no_string_processing : bool) : M (option APK) :=
  logger_debug (reading_message filepath) ;;
  try_except
    (apk <- call (EvParse filepath no_string_processing)
                 (APK_init filepath no_string_processing) ;;
     ret (Some apk))
    (fun e =>
       if isinstance_APKParsingError e then
         Some (logger_error (not_an_apk_message filepath) ;; ret None)
       else if isinstance_ParsingError e then
         Some (logger_error (not_readable_message filepath) ;; ret None)
       else None).

(** The debug record of [read_target_file], when the logger lets it
    through. *)
Definition reading_record `{Externals} (filepath : pystr) (s : state)
  : list event :=
  if (level_value (logger_level s) <=? level_value DEBUG)%Z
  then [EvLog DEBUG (reading_message filepath)] else [].

(** [print_apk_info] (lines 127-129). *)
Definition print_apk_info `{Externals} (apk : APK) : M unit :=
  m <- call (EvDump apk) (APK_dump apk) ;;
  apk_info <- pure_call (json_dumps m) ;;
  call (EvPrint apk_info) (builtin_print apk_info).

Definition creating_message (output_directory : pystr) : pystr :=
  str "Creating " ++ output_directory ++ str "/...".

(** The info record of [create_output_directory_if_needed], when the
    logger lets it through. *)
Definition creating_record `{Externals} (output_directory : pystr)
    (s : state) : list event :=
  if (level_value (logger_level s) <=? level_value INFO)%Z
  then [EvLog INFO (creating_message output_directory)] else [].

(** [create_output_directory_if_needed] (lines 152-155). *)
Definition create_output_directory_if_needed `{Externals}
    (output_directory : pystr) : M unit :=
  found <- call (EvExists output_directory)
                (fun w => (Ret (os_path_exists output_directory w), w)) ;;
  if negb found then
    logger_info (creating_message output_directory) ;;
    call (EvMakedirs output_directory) (os_makedirs output_directory)
  else ret tt.

(** The directory the entries go to: [./] is completed with the file
    name (lines 141-142). *)
Definition effective_output_directory
    (filename output_directory : pystr) : pystr :=
  if pystr_eqb output_directory (str "./")
  then output_directory ++ filename
  else output_directory.

(** [extract_apk_info_to_directory] (lines 132-149). *)
Definition extract_apk_info_to_directory `{Externals}
    (apk : APK) (filepath filename output_directory : pystr) : M unit :=
  let output_directory :=
    effective_output_directory filename output_directory in
  create_output_directory_if_needed output_directory ;;
  call (EvApkTool filepath output_directory)
       (LaunchApkTool_execute filepath output_directory) ;;
  call (EvDex2Jar filepath filename output_directory)
       (LaunchDex2Jar_execute filepath filename output_directory) ;;
  call (EvExtractCertificateFile apk output_directory)
       (ExtractCertificateFile_execute apk output_directory) ;;
  call (EvExtractDexFile apk output_directory)
       (ExtractDexFile_execute apk output_directory) ;;
  call (EvHtml apk filename output_directory)
       (GetApkInfoInHtml_execute apk filename output_directory) ;;
  call (EvJson apk filename output_directory)
       (GetApkInfoInJson_execute apk filename output_directory).

(** [main] (lines 39-53), on the command line [argv]; the value returned
    is the exit status handed to [sys.exit]. *)
Definition main `{Externals} (argv : list cli_arg) : M Z :=
  args <- get_args argv ;;
  (if verbose args then logger_setLevel DEBUG else ret tt) ;;
  apk <- read_target_file (target args) (no_string_processing args) ;;
  match apk with
  | None => ret 1%Z
  | Some apk =>
      let filename := get_apk_filename_without_extension (target args) in
      match target_output_directory args with
      | None => print_apk_info apk
      | Some d =>
          extract_apk_info_to_directory apk (target args) filename d
      end ;;
      ret 0%Z
  end.

(** The output step [main] takes for a parsed APK. *)
Definition output_step `{Externals} (args : Namespace) (apk : APK) : M unit :=
  match target_output_directory args with
  | None => print_apk_info apk
  | Some d =>
      extract_apk_info_to_directory apk (target args)
        (get_apk_filename_without_extension (target args)) d
  end.

(** The state in which [main] calls [read_target_file]: the logger is at
    [DEBUG] when [--verbose] was given. *)
Definition state_after_options `{Externals}
    (args : Namespace) (s : state) : state :=
  {| world := world s;
     logger_level := if verbose args then DEBUG else logger_level s |}.

(** *** Reading a command line *)

(** The directory stored for an occurrence of [--extract]. *)
Definition stored_directory (v : option pystr) : pystr :=
  match v with Some d => d | None => str "./" end.

(** Is [-ns]/[--no-string-processing] on the command line? *)
Definition flag_given (argv : list cli_arg) : bool :=
  existsb
    (fun a => match a with OptNoStringProcessing => true | _ => false end)
    argv.

(** The value of the last [-e]/[--extract] of the command line: [None]
    when the option is absent, [Some None] when it stands without a
    value. *)
Fixpoint extract_option (argv : list cli_arg) : option (option pystr) :=
  match argv with
  | [] => None
  | a :: rest =>
      match extract_option rest, a with
      | Some v, _ => Some v
      | None, OptExtract v => Some v
      | None, _ => None
      end
  end.

(** *** Reading a trace *)

Definition is_log `{Externals} (ev : event) : bool :=
  match ev with EvLog _ _ => true | _ => false end.

Definition is_print `{Externals} (ev : event) : bool :=
  match ev with EvPrint _ => true | _ => false end.

(** The six use cases. *)
Definition is_collaborator `{Externals} (ev : event) : bool :=
  match ev with
  | EvApkTool _ _ | EvDex2Jar _ _ _
  | EvExtractCertificateFile _ _ | EvExtractDexFile _ _
  | EvHtml _ _ _ | EvJson _ _ _ => true
  | _ => false
  end.

(** Anything the extraction mode does to the world. *)
Definition is_extraction `{Externals} (ev : event) : bool :=
  match ev with
  | EvExists _ | EvMakedirs _ => true
  | _ => is_collaborator ev
  end.

Definition is_parse `{Externals} (ev : event) : bool :=
  match ev with EvParse _ _ => true | _ => false end.

(** The calls of the six use cases of one extraction, in source order. *)
Definition collaborator_calls `{Externals}
    (apk : APK) (filepath filename output_directory : pystr) : list event :=
  [ EvApkTool filepath output_directory;
    EvDex2Jar filepath filename output_directory;
    EvExtractCertificateFile apk output_directory;
    EvExtractDexFile apk output_directory;
    EvHtml apk filename output_directory;
    EvJson apk filename output_directory ].

(** [os.makedirs] and the six use cases return whenever the driver can
    call them: no exception comes out of the extraction. *)
Definition extraction_returns `{Externals} : Prop :=
  (forall d w, os_path_exists d w = false ->
     exists w', os_makedirs d w = (Ret tt, w'))
  /\ (forall f d w, exists w', LaunchApkTool_execute f d w = (Ret tt, w'))
  /\ (forall f n d w, exists w', LaunchDex2Jar_execute f n d w = (Ret tt, w'))
  /\ (forall a d w,
        exists w', ExtractCertificateFile_execute a d w = (Ret tt, w'))
  /\ (forall a d w, exists w', ExtractDexFile_execute a d w = (Ret tt, w'))
  /\ (forall a n d w,
        exists w', GetApkInfoInHtml_execute a n d w = (Ret tt, w'))
  /\ (forall a n d w,
        exists w', GetApkInfoInJson_execute a n d w = (Ret tt, w')).

(** The output directory an event of a use case carries. *)
Definition event_output_directory `{Externals} (ev : event) : option pystr :=
  match ev with
  | EvApkTool _ d | EvDex2Jar _ _ d
  | EvExtractCertificateFile _ d | EvExtractDexFile _ d
  | EvHtml _ _ d | EvJson _ _ d => Some d
  | _ => None
  end.

(* ===================================================================== *)
(** ** A small world to run the driver in *)
(* ===================================================================== *)

Module Toy.

(** A flat set of paths and the lines printed so far. *)
Record toy_world : Type := {
  paths : list pystr;
  printed : list pystr
}.

Definition present (p : pystr) (w : toy_world) : bool :=
  existsb (pystr_eqb p) (paths w).

Definition add_path (p : pystr) (w : toy_world) : toy_world :=
  {| paths := p :: paths w; printed := printed w |}.

(** A package is a present file whose name holds [.apk]; it is parsed
    into its path and the string-processing switch. *)
Definition toy_init (filepath : pystr) (string_processing : bool)
    (w : toy_world) : outcome (pystr * bool) * toy_world :=
  if present filepath w then
    if Re.search_ic Re.dot_apk filepath
    then (Ret (filepath, string_processing), w)
    else (Raise APKParsingError, w)
  else (Raise ParsingError, w).

Definition toy_dumps (m : pystr * bool) : outcome pystr :=
  Ret (str "{" ++ fst m ++ (if snd m then str ", urls" else []) ++ str "}").

Definition toy_print (text : pystr) (w : toy_world)
  : outcome unit * toy_world :=
  (Ret tt, {| paths := paths w; printed := printed w ++ [text] |}).

(** This small world keeps what goes to either standard stream in
    [printed]. *)
Definition toy_argparse_write (message : argparse_message) (w : toy_world)
  : outcome unit * toy_world :=
  toy_print
    match message with
    | VersionMessage text => text
    | HelpMessage => str "usage: ninjadroid"
    | RequiredMissing => str "error: the following arguments are required"
    | Unrecognized _ => str "error: unrecognized arguments"
    end w.

(** [FileExistsError] is [OtherException 17]. *)
Definition toy_makedirs (p : pystr) (w : toy_world)
  : outcome unit * toy_world :=
  if present p w then (Raise (OtherException 17), w)
  else (Ret tt, add_path p w).

(** A use case leaves one entry in the output directory. *)
Definition toy_tool (entry : string) (output_directory : pystr)
    (w : toy_world) : outcome unit * toy_world :=
  (Ret tt, add_path (output_directory ++ str "/" ++ str entry) w).

Definition toy : Externals :=
  {| Ext := toy_world;
     APK := pystr * bool;
     Mapping := pystr * bool;
     APK_init := toy_init;
     APK_dump := fun apk w => (Ret apk, w);
     json_dumps := toy_dumps;
     builtin_print := toy_print;
     argparse_write := toy_argparse_write;
     os_path_exists := present;
     os_makedirs := toy_makedirs;
     LaunchApkTool_execute := fun _ d => toy_tool "smali" d;
     LaunchDex2Jar_execute := fun _ _ d => toy_tool "classes.jar" d;
     ExtractCertificateFile_execute := fun _ d => toy_tool "CERT.RSA" d;
     ExtractDexFile_execute := fun _ d => toy_tool "classes.dex" d;
     GetApkInfoInHtml_execute := fun _ _ d => toy_tool "report.html" d;
     GetApkInfoInJson_execute := fun _ _ d => toy_tool "report.json" d |}.

(** A world with one package and one file that is no package. *)
Definition toy_disk : toy_world :=
  {| paths := [str "/tmp/sample.apk"; str "/tmp/notes.txt"];
     printed := [] |}.

Definition toy_start : @state toy := @Build_state toy toy_disk INFO.

End Toy.

(* ===================================================================== *)
(** ** The decoding contracts *)
(* ===================================================================== *)

(** The result of a decoder: a value or an error of its taxonomy. *)
Inductive result (A E : Type) : Type :=
| Ok (a : A)
| Err (e : E).
Arguments Ok {A E} a.
Arguments Err {A E} e.

Definition bytes := list byte.

Definition bytes_eqb (a b : bytes) : bool :=
  if list_eq_dec byte_eq_dec a b then true else false.

Module ContainerReader.

Inductive ContainerError : Type :=
| NotAnArchive
| TruncatedArchive
| UnsupportedCompression.

(** An entry of the central directory: its name, its sizes, the CRC-32
    recorded for it and where its local header starts in the buffer. *)
Record ContainerEntry : Type := {
  entry_name : bytes;
  uncompressed_size : N;
  compressed_size : N;
  crc32 : N;
  local_header_offset : N
}.

(** An archive keeps the buffer, for entries are materialised on
    demand, and the entries in central-directory order. *)
Record Archive : Type := {
  buffer : bytes;
  entries : list ContainerEntry
}.

(** The signature of the end-of-central-directory record, [PK\005\006]. *)
Definition eocd_signature : bytes := [x50; x4b; x05; x06].

(** [b] starts with [sig]. *)
Fixpoint starts_with (sig b : bytes) : bool :=
  match sig, b with
  | [], _ => true
  | _ :: _, [] => false
  | x :: sig', y :: b' => Byte.eqb x y && starts_with sig' b'
  end.

Definition signature_at (b : bytes) (pos : nat) : bool :=
  starts_with eocd_signature (skipn pos b).

(** The positions below [n], the highest first. *)
Fixpoint scan_backward (b : bytes) (n : nat) : option nat :=
  match n with
  | O => None
  | S p => if signature_at b p then Some p else scan_backward b p
  end.

(** Modelled from the spec: the reader scans backward from the end of
    the buffer for the fixed signature of the end-of-central-directory
    record (the Container Reader is not under src/). *)
Definition find_eocd (b : bytes) : option nat :=
  scan_backward b (length b).

(** A little-endian unsigned integer. *)
Fixpoint le_value (field : bytes) : N :=
  match field with
  | [] => 0
  | x :: rest => Byte.to_N x + 256 * le_value rest
  end.

(** The [width] bytes at [pos], when the buffer holds them all. *)
Definition slice (b : bytes) (pos width : nat) : option bytes :=
  let field := firstn width (skipn pos b) in
  if Nat.eqb (length field) width then Some field else None.

Definition read_le (b : bytes) (pos width : nat) : option N :=
  option_map le_value (slice b pos width).

(** The end-of-central-directory record at [pos]: 22 bytes, with the
    number of records at offset 10 and the offset of the central
    directory at offset 16. *)
Definition read_eocd (b : bytes) (pos : nat) : option (nat * nat) :=
  match slice b pos 22, read_le b (pos + 10) 2, read_le b (pos + 16) 4 with
  | Some _, Some count, Some offset => Some (N.to_nat count, N.to_nat offset)
  | _, _, _ => None
  end.

(** The central-directory record at [cursor]: a fixed part of 46 bytes,
    then the name, the extra field and the comment, whose lengths the
    fixed part declares.  Returns the entry and the cursor after it. *)
Definition read_record (b : bytes) (cursor : nat)
  : option (ContainerEntry * nat) :=
  match read_le b (cursor + 16) 4, read_le b (cursor + 20) 4,
        read_le b (cursor + 24) 4, read_le b (cursor + 28) 2,
        read_le b (cursor + 30) 2, read_le b (cursor + 32) 2,
        read_le b (cursor + 42) 4 with
  | Some crc, Some csize, Some usize, Some n, Some m, Some k, Some off =>
      let total := 46 + N.to_nat n + N.to_nat m + N.to_nat k in
      match slice b cursor total, slice b (cursor + 46) (N.to_nat n) with
      | Some _, Some name =>
          Some ({| entry_name := name;
                   uncompressed_size := usize;
                   compressed_size := csize;
                   crc32 := crc;
                   local_header_offset := off |},
                cursor + total)
      | _, _ => None
      end
  | _, _, _, _, _, _, _ => None
  end.

(** The given number of records, one after the other. *)
Fixpoint walk_records (b : bytes) (count cursor : nat)
  : result (list ContainerEntry) ContainerError :=
  match count with
  | O => Ok []
  | S k =>
      match read_record b cursor with
      | None => Err TruncatedArchive
      | Some (entry, next) =>
          match walk_records b k next with
          | Ok rest => Ok (entry :: rest)
          | Err e => Err e
          end
      end
  end.

(** Modelled from the spec: [open] of the Container Reader (4.1), which
    is not under src/.  It finds the end-of-central-directory record,
    then walks the records it announces; it fails with [NotAnArchive]
    when the signature is absent and with [TruncatedArchive] when a
    declared record extends past the end of the buffer. *)
Definition open (b : bytes) : result Archive ContainerError :=
  match find_eocd b with
  | None => Err NotAnArchive
  | Some pos =>
      match read_eocd b pos with
      | None => Err TruncatedArchive
      | Some (count, offset) =>
          match walk_records b count offset with
          | Ok es => Ok {| buffer := b; entries := es |}
          | Err e => Err e
          end
      end
  end.

(** The buffer holds the signature somewhere. *)
Definition has_eocd_signature (b : bytes) : Prop :=
  exists before after, b = before ++ eocd_signature ++ after.


(** A buffer that is one empty archive: the 22 bytes of the record. *)
Definition empty_archive : bytes :=
  eocd_signature ++ repeat x00 18.

End ContainerReader.

Module Aggregator.

Import ContainerReader.

Inductive ManifestError : Type :=
| InvalidChunk
| StringPoolIndexOutOfRange
| NotAManifest.

Inductive DexError : Type :=
| BadMagic
| UnsupportedEndian
| TruncatedTable.


Inductive algorithm : Type := MD5 | SHA1 | SHA256.

(** What the Dex Decoder reads before it checks the content: the
    declared checksum, signature and size, and the string table. *)
Record DexTables : Type := {
  declared_checksum : N;
  declared_signature : bytes;
  declared_file_size : N;
  string_table : list bytes
}.

Record DexSummary : Type := {
  tables : DexTables;
  computed_file_size : N;
  integrity_verified : bool
}.

(** The two categories of the String Classifier. *)
Record ClassifiedStrings : Type := {
  urls : list bytes;
  shell_commands : list bytes
}.

(** The leaf decoders, as the pure functions of their contracts. *)
Class Decoders : Type := {
  Manifest : Type;
  Certificate : Type;
  (** [Archive.read_entry(name)] *)
  read_entry : Archive -> bytes -> result bytes ContainerError;
  (** Manifest Decoder: [decode(bytes)] *)
  manifest_decode : bytes -> result Manifest ManifestError;
  (** Dex Decoder: magic, header and index tables *)
  dex_tables : bytes -> result DexTables DexError;
  (** the content checksum and the content signature of the Dex format *)
  content_checksum : bytes -> N;
  content_signature : bytes -> bytes;
  (** Certificate Extractor: [extract(archive)] *)
  cert_extract : Archive -> list Certificate;
  (** Hash Engine: [digest(bytes, algorithm)] *)
  digest : bytes -> algorithm -> bytes;
  (** the two patterns of the String Classifier *)
  is_url : bytes -> bool;
  is_shell_command : bytes -> bool
}.

(** A field of the package: present, or absent with the reason. *)
Inductive field (A E : Type) : Type :=
| Present (a : A)
| NoEntry
| Unreadable (e : ContainerError)
| Failed (e : E).
Arguments Present {A E} a.
Arguments NoEntry {A E}.
Arguments Unreadable {A E} e.
Arguments Failed {A E} e.

Record Package `{Decoders} : Type := {
  file_name : bytes;
  size : N;
  md5 : bytes;
  sha1 : bytes;
  sha256 : bytes;
  manifest : field Manifest ManifestError;
  cert : list Certificate;
  dex : field DexSummary DexError;
  dex_sha256 : option bytes;
  strings : option ClassifiedStrings;
  container_entries : list ContainerEntry
}.



(** Modelled from the spec: the integrity check of the Dex Decoder
    (4.3), which is not under src/: checksum and signature are computed
    again over the bytes after the first 12 and compared with the
    declared ones. *)
Definition check_integrity `{Decoders} (b : bytes) (t : DexTables) : bool :=
  let content := skipn 12 b in
  N.eqb (content_checksum content) (declared_checksum t)
  && bytes_eqb (content_signature content) (declared_signature t).

(** Modelled from the spec: [decode] of the Dex Decoder (4.3), which is
    not under src/; a mismatch is recorded and does not abort. *)
Definition dex_decode `{Decoders} (b : bytes) : result DexSummary DexError :=
  match dex_tables b with
  | Err e => Err e
  | Ok t =>
      Ok {| tables := t;
            computed_file_size := N.of_nat (length b);
            integrity_verified := check_integrity b t |}
  end.


(** Modelled from the spec: [classify] of the String Classifier (4.6),
    which is not under src/; the first category wins. *)
Definition classify `{Decoders} (table : list bytes) (enabled : bool)
  : ClassifiedStrings :=
  if enabled then
    {| urls := filter is_url table;
       shell_commands :=
         filter (fun t => negb (is_url t) && is_shell_command t) table |}
  else {| urls := []; shell_commands := [] |}.



(** Decoders for a sample run: an entry is the whole buffer, the
    manifest is its length and no string is of interest. *)
Definition sample_decoders : Decoders :=
  {| Manifest := nat;
     Certificate := bytes;
     read_entry := fun a _ => Ok (buffer a);
     manifest_decode := fun b => Ok (length b);
     dex_tables := fun _ => Err BadMagic;
     content_checksum := fun _ => 0%N;
     content_signature := fun _ => [];
     cert_extract := fun _ => [];
     digest := fun b _ => b;
     is_url := fun _ => false;
     is_shell_command := fun _ => false |}.

End Aggregator.

(* ===================================================================== *)
(** ** JSON, as [print_apk_info] writes it *)
(* ===================================================================== *)

Module Json.

(** The values [json.dumps] is given here: no floats. *)
Inductive value : Type :=
| Null
| Bool (b : bool)
| Int (z : Z)
| Str (s : pystr)
| Arr (items : list value)
| Obj (fields : list (pystr * value)).

Definition backslash : N := 92%N.

Definition hex_digit (n : N) : N :=
  if (n <? 10)%N then (48 + n)%N else (87 + n)%N.

(** With [ensure_ascii=False] only the quote, the backslash and the
    control characters below U+0020 are escaped. *)
Definition escape (c : N) : pystr :=
  if (c =? 34)%N then [backslash; 34%N]
  else if (c =? 92)%N then [backslash; backslash]
  else if (c =? 10)%N then backslash :: str "n"
  else if (c =? 13)%N then backslash :: str "r"
  else if (c =? 9)%N then backslash :: str "t"
  else if (c =? 8)%N then backslash :: str "b"
  else if (c =? 12)%N then backslash :: str "f"
  else if (c <? 32)%N
       then backslash :: str "u00"
              ++ [hex_digit (c / 16); hex_digit (c mod 16)]
  else [c].

Definition quote (s : pystr) : pystr :=
  [34%N] ++ flat_map escape s ++ [34%N].

Definition decimal (z : Z) : pystr :=
  str (NilZero.string_of_int (Z.to_int z)).

(** A new line and [indent=4] spaces for each level. *)
Definition newline_indent (level : nat) : pystr :=
  10%N :: repeat 32%N (4 * level).

Fixpoint join (sep : pystr) (parts : list pystr) : pystr :=
  match parts with
  | [] => []
  | [p] => p
  | p :: rest => p ++ sep ++ join sep rest
  end.

(** The order of [str]: by code points, a prefix first. *)
Fixpoint str_leb (a b : pystr) : bool :=
  match a, b with
  | [], _ => true
  | _ :: _, [] => false
  | x :: a', y :: b' =>
      if (x <? y)%N then true
      else if (y <? x)%N then false
      else str_leb a' b'
  end.

Fixpoint insert_by_key (kv : pystr * pystr) (l : list (pystr * pystr))
  : list (pystr * pystr) :=
  match l with
  | [] => [kv]
  | kv' :: rest =>
      if str_leb (fst kv) (fst kv') then kv :: l
      else kv' :: insert_by_key kv rest
  end.

(** [sort_keys=True]: the items by key. *)
Definition sort_by_key (l : list (pystr * pystr)) : list (pystr * pystr) :=
  fold_right insert_by_key [] l.

(** The text of a value at a nesting level: items one per line, [","]
    between them and [": "] after a key; an empty list or mapping on one
    line. *)
Fixpoint encode (level : nat) (v : value) : pystr :=
  match v with
  | Null => str "null"
  | Bool true => str "true"
  | Bool false => str "false"
  | Int z => decimal z
  | Str s => quote s
  | Arr [] => str "[]"
  | Arr items =>
      str "[" ++ newline_indent (S level)
        ++ join (str "," ++ newline_indent (S level))
                (map (encode (S level)) items)
        ++ newline_indent level ++ str "]"
  | Obj [] => str "{}"
  | Obj fields =>
      str "{" ++ newline_indent (S level)
        ++ join (str "," ++ newline_indent (S level))
             (map (fun kt => quote (fst kt) ++ str ": " ++ snd kt)
                (sort_by_key
                   (map (fun '(k, v') => (k, encode (S level) v')) fields)))
        ++ newline_indent level ++ str "}"
  end.

(** [json.dumps(v, sort_keys=True, ensure_ascii=False, indent=4)] *)
Definition dumps (v : value) : pystr := encode 0 v.


End Json.

(** How the three decoded parts show in the mapping. *)
Record Renderers `{Aggregator.Decoders} : Type := {
  render_manifest : Aggregator.Manifest -> Json.value;
  render_certificate : Aggregator.Certificate -> Json.value;
  render_dex : Aggregator.DexSummary -> Json.value
}.

(** Text kept as bytes, as a string. *)
Definition text_of (b : bytes) : pystr := map Byte.to_N b.

(** An absent part shows as [null]. *)
Definition render_field {A E} (render : A -> Json.value)
    (f : Aggregator.field A E) : Json.value :=
  match f with
  | Aggregator.Present a => render a
  | _ => Json.Null
  end.

(** Modelled from the spec: the mapping [dump] returns for a package
    (6), as the [APK] class is not under src/. *)
Definition package_mapping `{Aggregator.Decoders} (R : Renderers)
    (p : Aggregator.Package) : Json.value :=
  Json.Obj
    ([ (str "file_name", Json.Str (text_of (Aggregator.file_name p)));
       (str "size", Json.Int (Z.of_N (Aggregator.size p)));
       (str "md5", Json.Str (text_of (Aggregator.md5 p)));
       (str "sha1", Json.Str (text_of (Aggregator.sha1 p)));
       (str "sha256", Json.Str (text_of (Aggregator.sha256 p)));
       (str "manifest", render_field (render_manifest R) (Aggregator.manifest p));
       (str "cert", Json.Arr (map (render_certificate R) (Aggregator.cert p)));
       (str "dex", render_field (render_dex R) (Aggregator.dex p)) ]
     ++ match Aggregator.strings p with
        | Some c =>
            [ (str "urls",
               Json.Arr (map (fun u => Json.Str (text_of u))
                           (Aggregator.urls c)));
              (str "shell_commands",
               Json.Arr (map (fun u => Json.Str (text_of u))
                           (Aggregator.shell_commands c))) ]
        | None => []
        end).






(** A package with a decoded manifest and the strings of its dex, and
    renderers for it. *)
Definition sample_package : @Aggregator.Package Aggregator.sample_decoders :=
  @Aggregator.Build_Package Aggregator.sample_decoders
    (list_byte_of_string "sample.apk") 1024
    (list_byte_of_string "0f") (list_byte_of_string "1e")
    (list_byte_of_string "2d")
    (Aggregator.Present 7) [] Aggregator.NoEntry None
    (Some {| Aggregator.urls := [list_byte_of_string "http://a.b"];
             Aggregator.shell_commands := [] |})
    [].

Definition sample_renderers : @Renderers Aggregator.sample_decoders :=
  @Build_Renderers Aggregator.sample_decoders
    (fun n : nat => Json.Int (Z.of_nat n))
    (fun c : bytes => Json.Str (text_of c))
    (fun _ => Json.Null).


(* ===================================================================== *)
(** ** Reading a command line and a trace, continued *)
(* ===================================================================== *)

(** What the first [--version] or [--help] of the command line writes. *)
Fixpoint first_exit_message (argv : list cli_arg) : option argparse_message :=
  match argv with
  | [] => None
  | OptVersion :: _ => Some (exit_message OptVersion)
  | OptHelp :: _ => Some (exit_message OptHelp)
  | _ :: rest => first_exit_message rest
  end.

(** Is [-v]/[--verbose] on the command line? *)
Definition verbose_given (argv : list cli_arg) : bool :=
  existsb (fun a => match a with OptVerbose => true | _ => false end) argv.

(** The positional strings of the command line, in order. *)
Fixpoint positional_values (argv : list cli_arg) : list pystr :=
  match argv with
  | [] => []
  | Positional v :: rest => v :: positional_values rest
  | _ :: rest => positional_values rest
  end.

(** The usage error of a command line, by its positionals. *)
Definition usage_error (argv : list cli_arg) : option argparse_message :=
  match positional_values argv with
  | [] => Some RequiredMissing
  | [_] => None
  | _ :: extras => Some (Unrecognized extras)
  end.

(** The namespace of a command line whose only positional is [t]. *)
Definition namespace_of (t : pystr) (argv : list cli_arg) : Namespace :=
  {| target := t;
     target_output_directory :=
       option_map stored_directory (extract_option argv);
     no_string_processing := negb (flag_given argv);
     verbose := verbose_given argv |}.

(** The six use cases of one extraction, each with the record of its
    call, in source order (lines 144-149). *)
Definition collaborator_steps `{Externals}
    (apk : APK) (filepath filename output_directory : pystr)
  : list (event * (Ext -> outcome unit * Ext)) :=
  [ (EvApkTool filepath output_directory,
     LaunchApkTool_execute filepath output_directory);
    (EvDex2Jar filepath filename output_directory,
     LaunchDex2Jar_execute filepath filename output_directory);
    (EvExtractCertificateFile apk output_directory,
     ExtractCertificateFile_execute apk output_directory);
    (EvExtractDexFile apk output_directory,
     ExtractDexFile_execute apk output_directory);
    (EvHtml apk filename output_directory,
     GetApkInfoInHtml_execute apk filename output_directory);
    (EvJson apk filename output_directory,
     GetApkInfoInJson_execute apk filename output_directory) ].

(** Calls made one after the other, each on the world the one before
    left, up to the first that raises. *)
Fixpoint run_steps `{Externals}
    (steps : list (event * (Ext -> outcome unit * Ext))) (w : Ext)
  : outcome unit * Ext * list event :=
  match steps with
  | [] => (Ret tt, w, [])
  | (ev, f) :: rest =>
      match f w with
      | (Ret _, w1) =>
          match run_steps rest w1 with
          | (r, w2, evs) => (r, w2, ev :: evs)
          end
      | (Raise e, w1) => (Raise e, w1, [ev])
      end
  end.

(** The small world without apktool: launching it fails with
    [FileNotFoundError], here [OtherException 2]. *)
Definition broken_tool_toy : Externals :=
  {| Ext := Toy.toy_world;
     APK := pystr * bool;
     Mapping := pystr * bool;
     APK_init := Toy.toy_init;
     APK_dump := fun apk w => (Ret apk, w);
     json_dumps := Toy.toy_dumps;
     builtin_print := Toy.toy_print;
     argparse_write := Toy.toy_argparse_write;
     os_path_exists := Toy.present;
     os_makedirs := Toy.toy_makedirs;
     LaunchApkTool_execute := fun _ _ w => (Raise (OtherException 2), w);
     LaunchDex2Jar_execute := fun _ _ d => Toy.toy_tool "classes.jar" d;
     ExtractCertificateFile_execute := fun _ d => Toy.toy_tool "CERT.RSA" d;
     ExtractDexFile_execute := fun _ d => Toy.toy_tool "classes.dex" d;
     GetApkInfoInHtml_execute := fun _ _ d => Toy.toy_tool "report.html" d;
     GetApkInfoInJson_execute := fun _ _ d => Toy.toy_tool "report.json" d |}.

Definition broken_tool_start : @state broken_tool_toy :=
  @Build_state broken_tool_toy Toy.toy_disk INFO.

(** A run that only writes a message of [argparse] and leaves with
    [code], or with the exception of the write. *)
Definition exit_run `{Externals} {A}
    (message : argparse_message) (code : Z) (s : state)
  : outcome A * state * list event :=
  (match fst (argparse_write message (world s)) with
   | Ret _ => Raise (SystemExit code)
   | Raise e => Raise e
   end,
   {| world := snd (argparse_write message (world s));
      logger_level := logger_level s |},
   [EvArgparseWrite message]).

(** A record of level [DEBUG]. *)
Definition is_debug `{Externals} (ev : event) : bool :=
  match ev with EvLog DEBUG _ => true | _ => false end.

(** The two calls of [create_output_directory_if_needed]. *)
Definition is_directory_step `{Externals} (ev : event) : bool :=
  match ev with EvExists _ | EvMakedirs _ => true | _ => false end.

(** The small world again, with a parser that fails on every file with
    [PermissionError], here [OtherException 13]. *)
Definition locked_toy : Externals :=
  {| Ext := Toy.toy_world;
     APK := pystr * bool;
     Mapping := pystr * bool;
     APK_init := fun _ _ w => (Raise (OtherException 13), w);
     APK_dump := fun apk w => (Ret apk, w);
     json_dumps := Toy.toy_dumps;
     builtin_print := Toy.toy_print;
     argparse_write := Toy.toy_argparse_write;
     os_path_exists := Toy.present;
     os_makedirs := Toy.toy_makedirs;
     LaunchApkTool_execute := fun _ d => Toy.toy_tool "smali" d;
     LaunchDex2Jar_execute := fun _ _ d => Toy.toy_tool "classes.jar" d;
     ExtractCertificateFile_execute := fun _ d => Toy.toy_tool "CERT.RSA" d;
     ExtractDexFile_execute := fun _ d => Toy.toy_tool "classes.dex" d;
     GetApkInfoInHtml_execute := fun _ _ d => Toy.toy_tool "report.html" d;
     GetApkInfoInJson_execute := fun _ _ d => Toy.toy_tool "report.json" d |}.

Definition locked_start : @state locked_toy :=
  @Build_state locked_toy Toy.toy_disk INFO.

(** The small world on a read-only disk: [os.makedirs] fails with
    [PermissionError], here [OtherException 13]. *)
Definition readonly_toy : Externals :=
  {| Ext := Toy.toy_world;
     APK := pystr * bool;
     Mapping := pystr * bool;
     APK_init := Toy.toy_init;
     APK_dump := fun apk w => (Ret apk, w);
     json_dumps := Toy.toy_dumps;
     builtin_print := Toy.toy_print;
     argparse_write := Toy.toy_argparse_write;
     os_path_exists := Toy.present;
     os_makedirs := fun _ w => (Raise (OtherException 13), w);
     LaunchApkTool_execute := fun _ d => Toy.toy_tool "smali" d;
     LaunchDex2Jar_execute := fun _ _ d => Toy.toy_tool "classes.jar" d;
     ExtractCertificateFile_execute := fun _ d => Toy.toy_tool "CERT.RSA" d;
     ExtractDexFile_execute := fun _ d => Toy.toy_tool "classes.dex" d;
     GetApkInfoInHtml_execute := fun _ _ d => Toy.toy_tool "report.html" d;
     GetApkInfoInJson_execute := fun _ _ d => Toy.toy_tool "report.json" d |}.

Definition readonly_start : @state readonly_toy :=
  @Build_state readonly_toy Toy.toy_disk INFO.

(* ===================================================================== *)
(** * Properties *)
(* ===================================================================== *)

(** ** Strings and paths *)

Lemma pystr_eqb_eq (a b : pystr) : pystr_eqb a b = true <-> a = b.
Proof.
  unfold pystr_eqb. destruct (list_eq_dec N.eq_dec a b); split; congruence.
Qed.

Lemma pystr_eqb_refl (a : pystr) : pystr_eqb a a = true.
Proof. now apply pystr_eqb_eq. Qed.

Lemma pystr_eqb_neq (a b : pystr) : a <> b -> pystr_eqb a b = false.
Proof.
  intros H. destruct (pystr_eqb a b) eqn:E; [|reflexivity].
  apply pystr_eqb_eq in E. contradiction.
Qed.

(** [match_here] decides whether a window matching [pat] opens [s]. *)
Lemma match_here_iff (pat s : pystr) :
  Re.match_here pat s = true <->
  exists mid post,
    s = mid ++ post /\
    Forall2 (fun p c => Re.char_match_ic p c = true) pat mid.
Proof.
  revert s. induction pat as [|p pat IH]; intros s; simpl.
  - split; [intros _ | reflexivity].
    exists [], s. split; [reflexivity | constructor].
  - destruct s as [|c s].
    + split; [discriminate|]. intros (mid & post & E & F).
      inversion F; subst. discriminate.
    + rewrite andb_true_iff, IH. split.
      * intros (Hc & mid & post & -> & F).
        exists (c :: mid), post. split; [reflexivity | now constructor].
      * intros (mid & post & E & F). inversion F as [|? c' ? mid' Hc F']; subst.
        simpl in E. injection E as -> ->. split; [assumption|].
        now exists mid', post.
Qed.

(** [search_ic] decides occurrence up to case. *)
Lemma search_ic_iff (pat s : pystr) :
  Re.search_ic pat s = true <-> occurs_ic pat s.
Proof.
  unfold occurs_ic. induction s as [|c s IH]; simpl.
  - rewrite orb_false_r, match_here_iff. split.
    + intros (mid & post & E & F). now exists [], mid, post.
    + intros (pre & mid & post & E & F).
      destruct pre; [|discriminate]. now exists mid, post.
  - rewrite orb_true_iff, match_here_iff, IH. split.
    + intros [(mid & post & E & F) | (pre & mid & post & E & F)].
      * now exists [], mid, post.
      * exists (c :: pre), mid, post. split; [now rewrite E | assumption].
    + intros (pre & mid & post & E & F). destruct pre as [|c' pre].
      * left. now exists mid, post.
      * right. simpl in E. injection E as -> E. now exists pre, mid, post.
Qed.

(** What [basename_from] keeps is a suffix cut right after a separator,
    or the accumulator, and it holds no separator when the accumulator
    is a suffix of the same kind. *)
Lemma basename_from_spec (p acc : pystr) :
  (exists d, p = d ++ PosixPath.basename_from acc p
             /\ d <> [] /\ last d 0%N = PosixPath.sep
             /\ ~ In PosixPath.sep (PosixPath.basename_from acc p))
  \/ (PosixPath.basename_from acc p = acc /\ ~ In PosixPath.sep p).
Proof.
  revert acc. induction p as [|c p IH]; intros acc; simpl.
  - right. split; [reflexivity | intros []].
  - destruct (N.eqb_spec c PosixPath.sep) as [-> | Hc].
    + left. destruct (IH p) as [(d & E & Hd & Hl & Hn) | (E & Hn)].
      * exists (PosixPath.sep :: d). repeat split.
        -- simpl. now rewrite <- E.
        -- discriminate.
        -- simpl. destruct d; [contradiction | assumption].
        -- assumption.
      * exists [PosixPath.sep]. rewrite E. repeat split.
        -- discriminate.
        -- assumption.
    + destruct (IH acc) as [(d & E & Hd & Hl & Hn) | (E & Hn)].
      * left. exists (c :: d). repeat split.
        -- simpl. now rewrite <- E.
        -- discriminate.
        -- simpl. destruct d; [contradiction | assumption].
        -- assumption.
      * right. split; [assumption|]. intros [H | H]; [congruence | auto].
Qed.

(** [basename]: the path is a directory part, empty or ending in a
    separator, followed by the base name, which holds no separator. *)
Lemma basename_spec (p : pystr) :
  exists d,
    p = d ++ PosixPath.basename p
    /\ (d = [] \/ last d 0%N = PosixPath.sep)
    /\ ~ In PosixPath.sep (PosixPath.basename p).
Proof.
  unfold PosixPath.basename.
  destruct (basename_from_spec p p) as [(d & E & Hd & Hl & Hn) | (E & Hn)].
  - exists d. auto.
  - exists []. rewrite E. auto.
Qed.

Lemma slice_drop_last_split (k : nat) (s : pystr) :
  exists tail,
    s = slice_drop_last k s ++ tail /\ length tail = Nat.min k (length s).
Proof.
  unfold slice_drop_last. exists (skipn (length s - k) s). split.
  - symmetry. apply firstn_skipn.
  - rewrite length_skipn. lia.
Qed.

Example basename_nested :
  PosixPath.basename (str "/tmp/apps/Sample.APK") = str "Sample.APK".
Proof. reflexivity. Qed.

Example filename_plain :
  get_apk_filename_without_extension (str "/tmp/apps/Sample.APK")
  = str "Sample".
Proof. reflexivity. Qed.

Example filename_directory_component :
  get_apk_filename_without_extension (str "/tmp/apps.apk/classes.dex")
  = str "classes".
Proof. reflexivity. Qed.

Example filename_mid_name :
  get_apk_filename_without_extension (str "app.apk.bak") = str "app.apk".
Proof. reflexivity. Qed.

Example filename_short_basename :
  get_apk_filename_without_extension (str "/tmp/x.apk/ab") = [].
Proof. reflexivity. Qed.

Example filename_no_extension :
  get_apk_filename_without_extension (str "/tmp/apps/sample.zip")
  = str "sample.zip".
Proof. reflexivity. Qed.

(** C8.  When [.apk] occurs anywhere in the path, up to case, the result
    is the base name of the path without its last four characters (all
    of them when there are fewer than four); otherwise it is the base
    name itself. *)
Theorem get_apk_filename_without_extension_spec (filepath : pystr) :
  (occurs_ic Re.dot_apk filepath ->
   exists tail,
     PosixPath.basename filepath
       = get_apk_filename_without_extension filepath ++ tail
     /\ length tail = Nat.min 4 (length (PosixPath.basename filepath)))
  /\ (~ occurs_ic Re.dot_apk filepath ->
      get_apk_filename_without_extension filepath
        = PosixPath.basename filepath).
Proof.
  unfold get_apk_filename_without_extension. split; intros H.
  - apply search_ic_iff in H. rewrite H. apply slice_drop_last_split.
  - destruct (Re.search_ic Re.dot_apk filepath) eqn:E; [|reflexivity].
    apply search_ic_iff in E. contradiction.
Qed.

Lemma get_apk_filename_without_extension_spec_witness :
  (exists tail,
     PosixPath.basename (str "/tmp/apps.apk/classes.dex")
       = get_apk_filename_without_extension (str "/tmp/apps.apk/classes.dex")
           ++ tail
     /\ length tail = 4)
  /\ get_apk_filename_without_extension (str "/tmp/sample.zip")
       = str "sample.zip".
Proof.
  split.
  - apply (proj1 (get_apk_filename_without_extension_spec
                    (str "/tmp/apps.apk/classes.dex"))).
    exists (str "/tmp/apps"), (str ".apk"), (str "/classes.dex").
    split; [reflexivity|]. repeat constructor.
  - apply (proj2 (get_apk_filename_without_extension_spec
                    (str "/tmp/sample.zip"))).
    intros H. apply search_ic_iff in H. discriminate H.
Defined.

(** ** The monad *)

Lemma bind_ret_run `{Externals} {A B} (m : M A) (k : A -> M B) s a s1 ev1 :
  m s = (Ret a, s1, ev1) ->
  bind m k s = (let '(r, s2, ev2) := k a s1 in (r, s2, ev1 ++ ev2)).
Proof. intros E. unfold bind. rewrite E. reflexivity. Qed.

Lemma bind_raise_run `{Externals} {A B} (m : M A) (k : A -> M B) s e s1 ev1 :
  m s = (Raise e, s1, ev1) -> bind m k s = (Raise e, s1, ev1).
Proof. intros E. unfold bind. rewrite E. reflexivity. Qed.

(** Every level lets an [ERROR] record through. *)
Lemma logger_error_run `{Externals} (message : pystr) (s : state) :
  logger_error message s = (Ret tt, s, [EvLog ERROR message]).
Proof.
  unfold logger_error, logger_log. destruct (logger_level s); reflexivity.
Qed.

Lemma state_eta `{Externals} (s : state) :
  {| world := world s; logger_level := logger_level s |} = s.
Proof. destruct s; reflexivity. Qed.

(** ** [read_target_file] *)

Lemma read_target_file_run `{Externals} filepath flag (s : state) :
  read_target_file filepath flag s =
  let s' := {| world := snd (APK_init filepath flag (world s));
               logger_level := logger_level s |} in
  match fst (APK_init filepath flag (world s)) with
  | Ret apk =>
      (Ret (Some apk), s', reading_record filepath s ++ [EvParse filepath flag])
  | Raise e =>
      if isinstance_APKParsingError e then
        (Ret None, s',
         reading_record filepath s
           ++ [EvParse filepath flag;
               EvLog ERROR (not_an_apk_message filepath)])
      else if isinstance_ParsingError e then
        (Ret None, s',
         reading_record filepath s
           ++ [EvParse filepath flag;
               EvLog ERROR (not_readable_message filepath)])
      else (Raise e, s', reading_record filepath s ++ [EvParse filepath flag])
  end.
Proof.
  unfold read_target_file, reading_record, logger_debug, logger_log,
    bind, try_except, call, ret.
  destruct (level_value (logger_level s) <=? level_value DEBUG)%Z;
    destruct (APK_init filepath flag (world s)) as [[apk | e] w]; simpl;
    try reflexivity;
    destruct e; simpl; try reflexivity;
    rewrite logger_error_run; reflexivity.
Qed.

(** C1.  [read_target_file] tells the two failures of the APK parser
    apart.  On [APKParsingError] it logs that the target must be an APK
    package and returns [None]; on any other [ParsingError] it logs that
    the target must be an existing, readable file and returns [None];
    when the parser returns, it returns the parsed APK. *)
Theorem read_target_file_distinguishes_failures `{Externals}
    (filepath : pystr) (flag : bool) (s : state)
    (o : outcome APK) (w : Ext) :
  APK_init filepath flag (world s) = (o, w) ->
  let s' := {| world := w; logger_level := logger_level s |} in
  let seen := reading_record filepath s ++ [EvParse filepath flag] in
  (forall e, o = Raise e -> isinstance_APKParsingError e = true ->
     read_target_file filepath flag s
     = (Ret None, s',
        seen ++ [EvLog ERROR (not_an_apk_message filepath)]))
  /\ (forall e, o = Raise e ->
        isinstance_ParsingError e = true ->
        isinstance_APKParsingError e = false ->
        read_target_file filepath flag s
        = (Ret None, s',
           seen ++ [EvLog ERROR (not_readable_message filepath)]))
  /\ (forall apk, o = Ret apk ->
        read_target_file filepath flag s = (Ret (Some apk), s', seen)).
Proof.
  intros E s' seen. subst s' seen.
  rewrite read_target_file_run, E. simpl.
  repeat split.
  - intros e -> He. rewrite He, <- app_assoc. reflexivity.
  - intros e -> He Hn. rewrite Hn, He, <- app_assoc. reflexivity.
  - intros apk ->. reflexivity.
Qed.

Lemma read_target_file_distinguishes_failures_witness :
  @read_target_file Toy.toy (str "/tmp/notes.txt") true Toy.toy_start
    = (Ret None, Toy.toy_start,
       [EvParse (str "/tmp/notes.txt") true;
        EvLog ERROR (not_an_apk_message (str "/tmp/notes.txt"))])
  /\ @read_target_file Toy.toy (str "/tmp/missing.apk") true Toy.toy_start
    = (Ret None, Toy.toy_start,
       [EvParse (str "/tmp/missing.apk") true;
        EvLog ERROR (not_readable_message (str "/tmp/missing.apk"))])
  /\ @read_target_file Toy.toy (str "/tmp/sample.apk") true Toy.toy_start
    = (Ret (Some (str "/tmp/sample.apk", true)), Toy.toy_start,
       [EvParse (str "/tmp/sample.apk") true]).
Proof.
  split; [|split].
  - apply (proj1 (@read_target_file_distinguishes_failures Toy.toy
             (str "/tmp/notes.txt") true Toy.toy_start
             (Raise APKParsingError) Toy.toy_disk eq_refl)
             APKParsingError eq_refl eq_refl).
  - apply (proj1 (proj2 (@read_target_file_distinguishes_failures Toy.toy
             (str "/tmp/missing.apk") true Toy.toy_start
             (Raise ParsingError) Toy.toy_disk eq_refl))
             ParsingError eq_refl eq_refl eq_refl).
  - apply (proj2 (proj2 (@read_target_file_distinguishes_failures Toy.toy
             (str "/tmp/sample.apk") true Toy.toy_start
             (Ret (str "/tmp/sample.apk", true)) Toy.toy_disk eq_refl))
             (str "/tmp/sample.apk", true) eq_refl).
Defined.

(** ** [get_args] *)

(** [parser_exit] writes and leaves; it never returns. *)
Lemma parser_exit_run `{Externals} {A} message code (s : state) :
  @parser_exit _ A message code s
  = (match fst (argparse_write message (world s)) with
     | Ret _ => Raise (SystemExit code)
     | Raise e => Raise e
     end,
     {| world := snd (argparse_write message (world s));
        logger_level := logger_level s |},
     [EvArgparseWrite message]).
Proof.
  unfold parser_exit, bind, call, raise.
  destruct (argparse_write message (world s)) as [[u|e] w]; reflexivity.
Qed.

Lemma parser_exit_raises `{Externals} {A} message code (s : state) :
  exists e s1,
    @parser_exit _ A message code s = (Raise e, s1, [EvArgparseWrite message]).
Proof.
  rewrite parser_exit_run.
  destruct (fst (argparse_write message (world s))); eauto.
Qed.

Lemma consume_args_run `{Externals} (argv : list cli_arg) :
  forall (acc : parse_acc) (s : state),
    (exists acc',
        consume_args argv acc s = (Ret acc', s, [])
        /\ acc_no_string_processing acc'
           = acc_no_string_processing acc && negb (flag_given argv)
        /\ acc_target_output_directory acc'
           = match extract_option argv with
             | Some v => Some (stored_directory v)
             | None => acc_target_output_directory acc
             end)
    \/ (exists e s1 message,
          consume_args argv acc s
          = (Raise e, s1, [EvArgparseWrite message])).
Proof.
  induction argv as [|a rest IH]; intros acc s.
  - left. exists acc. simpl. rewrite andb_true_r. auto.
  - simpl consume_args.
    destruct (take_action a acc) as [acc1|] eqn:Ea.
    + destruct (IH acc1 s) as [(acc' & E & Hn & Hd) | E]; [left | now right].
      exists acc'. split; [assumption|]. rewrite Hn, Hd. simpl.
      destruct a; simpl in Ea; inversion Ea; subst; simpl;
        destruct (extract_option rest);
        auto using andb_false_r, andb_false_l.
    + right. destruct (parser_exit_raises (A := parse_acc)
                         (exit_message a) 0 s) as (e & s1 & E).
      eauto.
Qed.

(** [get_args] either returns the namespace, touching nothing, or leaves
    after [argparse] has written its message. *)
Lemma get_args_run `{Externals} (argv : list cli_arg) (s : state) :
  (exists args,
      get_args argv s = (Ret args, s, [])
      /\ no_string_processing args = negb (flag_given argv)
      /\ target_output_directory args
         = option_map stored_directory (extract_option argv))
  \/ (exists e s1 message,
        get_args argv s = (Raise e, s1, [EvArgparseWrite message])).
Proof.
  unfold get_args.
  destruct (consume_args_run argv parse_defaults s)
    as [(acc & E & Hn & Hd) | (e & s1 & message & E)].
  - rewrite (bind_ret_run _ _ _ E).
    destruct (acc_positionals acc) as [|t [|t' l]].
    + right. destruct (parser_exit_raises (A := Namespace)
                         RequiredMissing 2 s) as (e & s1 & E2).
      exists e, s1, RequiredMissing. now rewrite E2.
    + left. eexists. split; [reflexivity|]. simpl. split.
      * exact Hn.
      * rewrite Hd. simpl. now destruct (extract_option argv).
    + right. destruct (parser_exit_raises (A := Namespace)
                         (Unrecognized (t' :: l)) 2 s) as (e & s1 & E2).
      exists e, s1, (Unrecognized (t' :: l)). now rewrite E2.
  - right. exists e, s1, message. now rewrite (bind_raise_run _ _ _ E).
Qed.

Lemma get_args_ret `{Externals} (argv : list cli_arg) (s : state)
    args s0 ev0 :
  get_args argv s = (Ret args, s0, ev0) ->
  s0 = s /\ ev0 = []
  /\ no_string_processing args = negb (flag_given argv)
  /\ target_output_directory args
     = option_map stored_directory (extract_option argv).
Proof.
  intros E.
  destruct (get_args_run argv s)
    as [(a & Ea & Hn & Hd) | (e & s1 & message & Ec)].
  - rewrite Ea in E. inversion E; subst. auto.
  - rewrite Ec in E. discriminate.
Qed.

Lemma consume_args_spec `{Externals} (argv : list cli_arg) :
  forall (acc : parse_acc) (s : state),
    consume_args argv acc s =
    match first_exit_message argv with
    | Some message => parser_exit message 0 s
    | None =>
        (Ret {| acc_positionals :=
                  acc_positionals acc ++ positional_values argv;
                acc_target_output_directory :=
                  match extract_option argv with
                  | Some v => Some (stored_directory v)
                  | None => acc_target_output_directory acc
                  end;
                acc_no_string_processing :=
                  acc_no_string_processing acc && negb (flag_given argv);
                acc_verbose := acc_verbose acc || verbose_given argv |},
         s, [])
    end.
Proof.
  induction argv as [|a rest IH]; intros acc s.
  - simpl. rewrite app_nil_r, andb_true_r, orb_false_r.
    destruct acc; reflexivity.
  - destruct a; simpl; try reflexivity; rewrite IH;
      destruct (first_exit_message rest); try reflexivity; simpl;
      destruct (extract_option rest);
      rewrite <- ?app_assoc, ?andb_false_r, ?orb_true_r; reflexivity.
Qed.

(** [get_args] as one equation. *)
Lemma get_args_equation `{Externals} (argv : list cli_arg) (s : state) :
  get_args argv s =
  match first_exit_message argv with
  | Some message => parser_exit message 0 s
  | None =>
      match positional_values argv with
      | [] => parser_exit RequiredMissing 2 s
      | [t] => (Ret (namespace_of t argv), s, [])
      | _ :: extras => parser_exit (Unrecognized extras) 2 s
      end
  end.
Proof.
  unfold get_args, bind. rewrite consume_args_spec.
  destruct (first_exit_message argv) as [message|].
  - rewrite !parser_exit_run.
    now destruct (fst (argparse_write message (world s))).
  - simpl. destruct (positional_values argv) as [|t [|t' l]];
      try reflexivity;
      match goal with
      | |- (let (_, _) := ?x in _) = _ => destruct x as [[[a|e] s1] ev]
      end; reflexivity.
Qed.

(** ** [main] *)

(** [main] once the command line is accepted: the reader runs, then one
    of the two output steps. *)
Lemma main_run `{Externals} (argv : list cli_arg) (s : state) args :
  get_args argv s = (Ret args, s, []) ->
  main argv s =
  match read_target_file (target args) (no_string_processing args)
          (state_after_options args s) with
  | (Ret None, s2, ev1) => (Ret 1%Z, s2, ev1)
  | (Ret (Some apk), s2, ev1) =>
      match
        match target_output_directory args with
        | None => print_apk_info apk
        | Some d =>
            extract_apk_info_to_directory apk (target args)
              (get_apk_filename_without_extension (target args)) d
        end s2
      with
      | (Ret _, s3, ev2) => (Ret 0%Z, s3, ev1 ++ ev2)
      | (Raise e, s3, ev2) => (Raise e, s3, ev1 ++ ev2)
      end
  | (Raise e, s2, ev1) => (Raise e, s2, ev1)
  end.
Proof.
  intros E. unfold main. rewrite (bind_ret_run _ _ _ E). simpl.
  assert (Hopt :
    (if verbose args then logger_setLevel DEBUG else ret tt) s
    = (Ret tt, state_after_options args s, [])).
  { unfold state_after_options, logger_setLevel, ret.
    destruct (verbose args); [reflexivity | now rewrite state_eta]. }
  rewrite (bind_ret_run _ _ _ Hopt). simpl.
  unfold bind at 1.
  destruct (read_target_file _ _ _) as [[[[apk|]|e] s2] ev1];
    try reflexivity.
  - unfold bind.
    destruct (target_output_directory args) as [d|].
    + destruct (extract_apk_info_to_directory _ _ _ _ s2)
        as [[[u|e] s3] ev2]; simpl; [now rewrite app_nil_r | reflexivity].
    + destruct (print_apk_info apk s2) as [[[u|e] s3] ev2];
        simpl; [now rewrite app_nil_r | reflexivity].
  - unfold ret. now rewrite app_nil_r.
Qed.

(** ** Traces *)

Lemma filter_refine {A} (p q : A -> bool) (l : list A) :
  (forall x, p x = true -> q x = true) ->
  filter p l = filter p (filter q l).
Proof.
  intros Hpq. induction l as [|x l IH]; simpl; [reflexivity|].
  destruct (q x) eqn:Eq; simpl.
  - now rewrite IH.
  - destruct (p x) eqn:Ep; [|assumption].
    apply Hpq in Ep. congruence.
Qed.

Lemma filter_none {A} (p : A -> bool) (l : list A) :
  Forall (fun x => p x = false) l -> filter p l = [].
Proof.
  induction 1 as [|x l Hx _ IH]; simpl; [reflexivity|]. now rewrite Hx.
Qed.

Lemma filter_all {A} (p : A -> bool) (l : list A) :
  Forall (fun x => p x = true) l -> filter p l = l.
Proof.
  induction 1 as [|x l Hx _ IH]; simpl; [reflexivity|]. now rewrite Hx, IH.
Qed.

Lemma reading_record_is_log `{Externals} filepath (s : state) :
  Forall (fun ev => is_log ev = true) (reading_record filepath s).
Proof.
  unfold reading_record.
  destruct (level_value (logger_level s) <=? level_value DEBUG)%Z;
    repeat constructor.
Qed.

Lemma creating_record_is_log `{Externals} d (s : state) :
  Forall (fun ev => is_log ev = true) (creating_record d s).
Proof.
  unfold creating_record.
  destruct (level_value (logger_level s) <=? level_value INFO)%Z;
    repeat constructor.
Qed.

Lemma filter_not_log `{Externals} (logs : list event) :
  Forall (fun ev => is_log ev = true) logs ->
  filter (fun ev => negb (is_log ev)) logs = [].
Proof.
  intros F. apply filter_none.
  eapply Forall_impl; [|exact F]. simpl. now intros ev ->.
Qed.

(** Besides the log, [read_target_file] does one thing: it calls the
    parser. *)
Lemma read_target_file_trace `{Externals} filepath flag (s : state) r s2 ev :
  read_target_file filepath flag s = (r, s2, ev) ->
  filter (fun ev => negb (is_log ev)) ev = [EvParse filepath flag]
  /\ logger_level s2 = logger_level s.
Proof.
  rewrite read_target_file_run. simpl.
  pose proof (filter_not_log (reading_record_is_log filepath s)) as Hr.
  destruct (fst (APK_init filepath flag (world s))) as [apk|e].
  - intros E. inversion E; subst. rewrite filter_app, Hr. auto.
  - destruct (isinstance_APKParsingError e);
      [|destruct (isinstance_ParsingError e)];
      intros E; inversion E; subst; rewrite filter_app, Hr; auto.
Qed.

Lemma create_output_directory_if_needed_run `{Externals} d (s : state) :
  create_output_directory_if_needed d s =
  if os_path_exists d (world s) then (Ret tt, s, [EvExists d])
  else (fst (os_makedirs d (world s)),
        {| world := snd (os_makedirs d (world s));
           logger_level := logger_level s |},
        EvExists d :: creating_record d s ++ [EvMakedirs d]).
Proof.
  unfold create_output_directory_if_needed, creating_record, logger_info,
    logger_log, bind, call, ret. simpl.
  destruct (os_path_exists d (world s)); simpl.
  - now rewrite state_eta.
  - match goal with
    | |- context [Z.leb ?a ?b] => destruct (Z.leb a b)
    end; simpl; destruct (os_makedirs d (world s)) as [r w]; reflexivity.
Qed.

Lemma print_apk_info_run `{Externals} (apk : APK) (s : state) :
  print_apk_info apk s =
  let relevel w := {| world := w; logger_level := logger_level s |} in
  match APK_dump apk (world s) with
  | (Raise e, w) => (Raise e, relevel w, [EvDump apk])
  | (Ret m, w) =>
      match json_dumps m with
      | Raise e => (Raise e, relevel w, [EvDump apk])
      | Ret text =>
          (fst (builtin_print text w), relevel (snd (builtin_print text w)),
           [EvDump apk; EvPrint text])
      end
  end.
Proof.
  unfold print_apk_info, bind, call, pure_call. simpl.
  destruct (APK_dump apk (world s)) as [[m|e] w]; [|reflexivity].
  destruct (json_dumps m) as [text|e]; simpl.
  - destruct (builtin_print text w); reflexivity.
  - reflexivity.
Qed.

(** The use cases run in source order after the directory step; a raise
    cuts the sequence short. *)
Lemma extract_apk_info_to_directory_trace `{Externals}
    (apk : APK) filepath filename od (s : state) r s' evs :
  extract_apk_info_to_directory apk filepath filename od s = (r, s', evs) ->
  let d := effective_output_directory filename od in
  exists rc sc pre n,
    create_output_directory_if_needed d s = (rc, sc, pre)
    /\ evs = pre ++ firstn n (collaborator_calls apk filepath filename d)
    /\ (forall u, r = Ret u -> n = 6 /\ rc = Ret tt)
    /\ (forall e, rc = Raise e -> n = 0 /\ r = Raise e).
Proof.
  intros E d. unfold extract_apk_info_to_directory in E. fold d in E.
  destruct (create_output_directory_if_needed d s) as [[[[]|e0] sc] pre] eqn:Ec.
  2:{ rewrite (bind_raise_run _ _ _ Ec) in E. inversion E; subst.
      exists (Raise e0), s', evs, 0. simpl. rewrite app_nil_r.
      repeat split; try discriminate; congruence. }
  rewrite (bind_ret_run _ _ _ Ec) in E.
  exists (Ret tt), sc, pre.
  unfold bind, call in E. simpl in E.
  destruct (LaunchApkTool_execute filepath d (world sc)) as [[[]|e1] w1].
  2:{ inversion E; subst. exists 1. repeat split; discriminate. }
  simpl in E.
  destruct (LaunchDex2Jar_execute filepath filename d w1) as [[[]|e2] w2].
  2:{ inversion E; subst. exists 2. repeat split; discriminate. }
  simpl in E.
  destruct (ExtractCertificateFile_execute apk d w2) as [[[]|e3] w3].
  2:{ inversion E; subst. exists 3. repeat split; discriminate. }
  simpl in E.
  destruct (ExtractDexFile_execute apk d w3) as [[[]|e4] w4].
  2:{ inversion E; subst. exists 4. repeat split; discriminate. }
  simpl in E.
  destruct (GetApkInfoInHtml_execute apk filename d w4) as [[[]|e5] w5].
  2:{ inversion E; subst. exists 5. repeat split; discriminate. }
  simpl in E.
  destruct (GetApkInfoInJson_execute apk filename d w5) as [r6 w6].
  inversion E; subst. exists 6. repeat split; discriminate.
Qed.

Lemma in_firstn {A} (x : A) (n : nat) (l : list A) :
  In x (firstn n l) -> In x l.
Proof.
  revert l. induction n as [|n IH]; intros [|y l]; simpl; try tauto.
  intros [-> | Hin]; auto.
Qed.

Lemma collaborator_calls_all `{Externals} (apk : APK) filepath filename d n :
  Forall (fun ev => is_collaborator ev = true)
         (firstn n (collaborator_calls apk filepath filename d)).
Proof.
  apply Forall_forall. intros ev Hin. apply in_firstn in Hin.
  simpl in Hin. intuition (subst; reflexivity).
Qed.

Lemma create_output_directory_if_needed_trace `{Externals} d (s : state)
    rc sc pre :
  create_output_directory_if_needed d s = (rc, sc, pre) ->
  Forall (fun ev => is_collaborator ev = false) pre
  /\ Forall (fun ev => is_print ev = false) pre
  /\ Forall (fun ev => is_parse ev = false) pre
  /\ Forall (fun ev => event_output_directory ev = None) pre.
Proof.
  rewrite create_output_directory_if_needed_run.
  unfold creating_record.
  destruct (os_path_exists d (world s));
    [|destruct (level_value (logger_level s) <=? level_value INFO)%Z];
    intros E; inversion E; subst; repeat split; repeat constructor.
Qed.

(** What one extraction leaves in the trace, by kind of event. *)
Lemma extract_apk_info_to_directory_kinds `{Externals}
    (apk : APK) filepath filename od (s : state) r s' evs :
  extract_apk_info_to_directory apk filepath filename od s = (r, s', evs) ->
  filter is_print evs = []
  /\ filter is_parse evs = []
  /\ exists n,
       filter is_collaborator evs
       = firstn n (collaborator_calls apk filepath filename
                     (effective_output_directory filename od))
       /\ (forall u, r = Ret u -> n = 6).
Proof.
  intros E.
  destruct (extract_apk_info_to_directory_trace _ _ _ _ _ E)
    as (rc & sc & pre & n & Ec & -> & Hret & _).
  destruct (create_output_directory_if_needed_trace _ _ Ec)
    as (Hc & Hp & Hq & _).
  pose proof (collaborator_calls_all apk filepath filename
                (effective_output_directory filename od) n) as Hall.
  rewrite !filter_app, (filter_none _ Hc), (filter_none _ Hp),
    (filter_none _ Hq), (filter_all _ Hall). simpl.
  repeat split.
  - apply filter_none. eapply Forall_impl; [|exact Hall].
    intros ev. now destruct ev.
  - apply filter_none. eapply Forall_impl; [|exact Hall].
    intros ev. now destruct ev.
  - exists n. split; [reflexivity|]. intros u Hu. now apply (Hret u).
Qed.

(** What one printing leaves in the trace. *)
Lemma print_apk_info_kinds `{Externals} (apk : APK) (s : state) r s' evs :
  print_apk_info apk s = (r, s', evs) ->
  filter is_extraction evs = []
  /\ filter is_parse evs = []
  /\ Forall (fun ev => event_output_directory ev = None) evs
  /\ (forall u, r = Ret u ->
        exists m w text,
          APK_dump apk (world s) = (Ret m, w)
          /\ json_dumps m = Ret text
          /\ evs = [EvDump apk; EvPrint text]).
Proof.
  rewrite print_apk_info_run. simpl.
  destruct (APK_dump apk (world s)) as [[m|e] w].
  - destruct (json_dumps m) as [text|e] eqn:Ej; intros E; inversion E; subst.
    + split; [reflexivity|]. split; [reflexivity|].
      split; [repeat constructor|].
      intros u _. now exists m, w, text.
    + split; [reflexivity|]. split; [reflexivity|].
      split; [repeat constructor | discriminate].
  - intros E; inversion E; subst.
    split; [reflexivity|]. split; [reflexivity|].
    split; [repeat constructor | discriminate].
Qed.

(** The runs of [main]: a refused command line; or the reader, then, for
    a parsed APK, one output step. *)
Lemma main_cases `{Externals} (argv : list cli_arg) (s : state) r s' evs :
  main argv s = (r, s', evs) ->
  (exists e s1 message,
      get_args argv s = (Raise e, s1, [EvArgparseWrite message])
      /\ r = Raise e /\ s' = s1 /\ evs = [EvArgparseWrite message])
  \/ (exists args ra s2 ev1 ev2,
        get_args argv s = (Ret args, s, [])
        /\ read_target_file (target args) (no_string_processing args)
             (state_after_options args s) = (ra, s2, ev1)
        /\ evs = ev1 ++ ev2
        /\ match ra with
           | Ret (Some apk) =>
               exists ro,
                 output_step args apk s2 = (ro, s', ev2)
                 /\ r = match ro with
                        | Ret _ => Ret 0%Z
                        | Raise e => Raise e
                        end
           | Ret None => r = Ret 1%Z /\ ev2 = [] /\ s' = s2
           | Raise e => r = Raise e /\ ev2 = [] /\ s' = s2
           end).
Proof.
  intros E.
  destruct (get_args_run argv s)
    as [(args & Ea & _) | (e0 & s1 & message & Ec)].
  - right. rewrite (main_run _ Ea) in E.
    destruct (read_target_file _ _ _) as [[ra s2] ev1] eqn:Er.
    destruct ra as [[apk|]|e].
    + fold (output_step args apk) in E.
      destruct (output_step args apk s2) as [[ro s3] ev2] eqn:Eo.
      exists args, (Ret (Some apk)), s2, ev1, ev2.
      destruct ro as [u|e]; inversion E; subst;
        (split; [assumption|]); (split; [assumption|]);
        (split; [reflexivity|]);
        eexists; (split; [eassumption | reflexivity]).
    + inversion E; subst.
      exists args, (Ret None), s', evs, []. rewrite app_nil_r.
      repeat split; assumption.
    + inversion E; subst.
      exists args, (Raise e), s', evs, []. rewrite app_nil_r.
      repeat split; assumption.
  - left. exists e0, s1, message. unfold main in E.
    rewrite (bind_raise_run _ _ _ Ec) in E. inversion E; subst. auto.
Qed.

Lemma read_target_file_kinds `{Externals} filepath flag (s : state) r s2 ev :
  read_target_file filepath flag s = (r, s2, ev) ->
  filter is_parse ev = [EvParse filepath flag]
  /\ filter is_print ev = []
  /\ filter is_extraction ev = []
  /\ filter is_collaborator ev = []
  /\ Forall (fun ev => event_output_directory ev = None) ev.
Proof.
  intros E. pose proof (read_target_file_trace _ _ _ E) as [Ht _].
  assert (Hq : forall (p : event -> bool),
             (forall x, p x = true -> negb (is_log x) = true) ->
             filter p ev = filter p [EvParse filepath flag]).
  { intros p Hp. rewrite (filter_refine p _ ev Hp), Ht. reflexivity. }
  repeat split.
  - apply Hq. intros x. now destruct x.
  - apply Hq. intros x. now destruct x.
  - apply Hq. intros x. now destruct x.
  - apply Hq. intros x. now destruct x.
  - revert E. rewrite read_target_file_run. simpl.
    assert (Hr : Forall (fun ev => event_output_directory ev = None)
                   (reading_record filepath s)).
    { eapply Forall_impl; [|apply reading_record_is_log].
      intros x. now destruct x. }
    destruct (fst (APK_init filepath flag (world s))) as [apk|e];
      [|destruct (isinstance_APKParsingError e);
        [|destruct (isinstance_ParsingError e)]];
      intros E; inversion E; subst;
      apply Forall_app; split; try exact Hr; repeat constructor.
Qed.

Lemma output_step_kinds `{Externals} args (apk : APK) (s : state) r s' evs :
  output_step args apk s = (r, s', evs) -> filter is_parse evs = [].
Proof.
  unfold output_step. destruct (target_output_directory args); intros E.
  - now apply extract_apk_info_to_directory_kinds in E.
  - now apply print_apk_info_kinds in E.
Qed.




Example main_prints_with_strings :
  @main Toy.toy [Positional (str "/tmp/sample.apk")] Toy.toy_start
  = (Ret 0%Z,
     @Build_state Toy.toy
       {| Toy.paths := Toy.paths Toy.toy_disk;
          Toy.printed := [str "{/tmp/sample.apk, urls}"] |} INFO,
     [@EvParse Toy.toy (str "/tmp/sample.apk") true;
      @EvDump Toy.toy (str "/tmp/sample.apk", true);
      EvPrint (str "{/tmp/sample.apk, urls}")]).
Proof. reflexivity. Qed.

Example main_prints_without_strings :
  @main Toy.toy
    [Positional (str "/tmp/sample.apk"); OptNoStringProcessing; OptVerbose]
    Toy.toy_start
  = (Ret 0%Z,
     @Build_state Toy.toy
       {| Toy.paths := Toy.paths Toy.toy_disk;
          Toy.printed := [str "{/tmp/sample.apk}"] |} DEBUG,
     [@EvLog Toy.toy DEBUG (reading_message (str "/tmp/sample.apk"));
      EvParse (str "/tmp/sample.apk") false;
      @EvDump Toy.toy (str "/tmp/sample.apk", false);
      EvPrint (str "{/tmp/sample.apk}")]).
Proof. reflexivity. Qed.

(** C3, as amended.  On an accepted command line: when the reader
    returns no APK, [main] returns 1 and neither prints nor extracts;
    when it returns an APK, [main] runs one output step, printing when
    no output directory was asked for and extraction when one was, never
    both; it returns 0 once that step has returned, and raises what the
    step raises otherwise. *)
Theorem main_exit_status `{Externals}
    (argv : list cli_arg) (s : state) args s0 ev0 oapk s2 ev1 r s' evs :
  get_args argv s = (Ret args, s0, ev0) ->
  read_target_file (target args) (no_string_processing args)
    (state_after_options args s) = (Ret oapk, s2, ev1) ->
  main argv s = (r, s', evs) ->
  match oapk with
  | None =>
      r = Ret 1%Z /\ filter is_print evs = [] /\ filter is_extraction evs = []
  | Some apk =>
      match target_output_directory args with
      | None =>
          filter is_extraction evs = []
          /\ forall ro s3 ev2,
               print_apk_info apk s2 = (ro, s3, ev2) ->
               match ro with
               | Ret _ =>
                   r = Ret 0%Z
                   /\ exists text, filter is_print evs = [EvPrint text]
               | Raise e => r = Raise e
               end
      | Some d =>
          let filename := get_apk_filename_without_extension (target args) in
          filter is_print evs = []
          /\ forall ro s3 ev2,
               extract_apk_info_to_directory apk (target args) filename d s2
               = (ro, s3, ev2) ->
               match ro with
               | Ret _ =>
                   r = Ret 0%Z
                   /\ filter is_collaborator evs
                      = collaborator_calls apk (target args) filename
                          (effective_output_directory filename d)
               | Raise e => r = Raise e
               end
      end
  end.
Proof.
  intros Ea Er E.
  destruct (get_args_ret _ _ Ea) as (-> & -> & _).
  destruct (main_cases _ _ E)
    as [(xe & xs & xm & Ec & _) | (args' & ra & s2' & ev1' & ev2 & Ea' & Er' & -> & H')].
  { rewrite Ea in Ec. discriminate. }
  rewrite Ea in Ea'. inversion Ea'; subst args'. clear Ea'.
  rewrite Er in Er'. inversion Er'; subst ra s2' ev1'. clear Er'.
  destruct (read_target_file_kinds _ _ _ Er) as (_ & Hp & Hx & Hc & _).
  destruct oapk as [apk|].
  - destruct H' as (ro & Eo & ->). unfold output_step in Eo.
    destruct (target_output_directory args) as [d|].
    + destruct (extract_apk_info_to_directory_kinds _ _ _ _ _ Eo)
        as (Hp2 & _ & n & Hn & H6).
      split; [now rewrite filter_app, Hp, Hp2|].
      intros ro' s3 ev2' Eo'. rewrite Eo in Eo'. inversion Eo'; subst.
      destruct ro' as [u|e]; [|reflexivity].
      split; [reflexivity|].
      rewrite filter_app, Hc, Hn, (H6 u eq_refl). reflexivity.
    + destruct (print_apk_info_kinds _ _ Eo) as (Hx2 & _ & _ & Hret).
      split; [now rewrite filter_app, Hx, Hx2|].
      intros ro' s3 ev2' Eo'. rewrite Eo in Eo'. inversion Eo'; subst.
      destruct ro' as [u|e]; [|reflexivity].
      split; [reflexivity|].
      destruct (Hret u eq_refl) as (m & w & text & _ & _ & ->).
      exists text. now rewrite filter_app, Hp.
  - destruct H' as (-> & -> & _). rewrite app_nil_r. auto.
Qed.

Lemma main_exit_status_witness :
  (fst (fst (@main Toy.toy [Positional (str "/tmp/notes.txt")]
               Toy.toy_start)) = Ret 1%Z
   /\ filter is_print
        (snd (@main Toy.toy [Positional (str "/tmp/notes.txt")]
                Toy.toy_start)) = []
   /\ filter is_extraction
        (snd (@main Toy.toy [Positional (str "/tmp/notes.txt")]
                Toy.toy_start)) = [])
  /\ filter is_extraction
       (snd (@main Toy.toy [Positional (str "/tmp/sample.apk")]
               Toy.toy_start)) = []
  /\ filter is_print
       (snd (@main Toy.toy
               [Positional (str "/tmp/sample.apk");
                OptExtract (Some (str "/tmp/out"))]
               Toy.toy_start)) = []
  /\ (fst (fst (@main Toy.toy [Positional (str "/tmp/sample.apk")]
                  Toy.toy_start)) = Ret 0%Z
      /\ exists text,
           filter is_print
             (snd (@main Toy.toy [Positional (str "/tmp/sample.apk")]
                     Toy.toy_start)) = [EvPrint text])
  /\ (fst (fst (@main Toy.toy
                  [Positional (str "/tmp/sample.apk");
                   OptExtract (Some (str "/tmp/out"))]
                  Toy.toy_start)) = Ret 0%Z
      /\ filter is_collaborator
           (snd (@main Toy.toy
                   [Positional (str "/tmp/sample.apk");
                    OptExtract (Some (str "/tmp/out"))]
                   Toy.toy_start))
         = @collaborator_calls Toy.toy (str "/tmp/sample.apk", true)
             (str "/tmp/sample.apk") (str "sample") (str "/tmp/out")).
Proof.
  split; [|split; [|split; [|split]]].
  - exact (@main_exit_status Toy.toy
             [Positional (str "/tmp/notes.txt")] Toy.toy_start
             _ _ _ None _ _ _ _ _ eq_refl eq_refl eq_refl).
  - exact (proj1 (@main_exit_status Toy.toy
             [Positional (str "/tmp/sample.apk")] Toy.toy_start
             _ _ _ (Some (str "/tmp/sample.apk", true)) _ _ _ _ _
             eq_refl eq_refl eq_refl)).
  - exact (proj1 (@main_exit_status Toy.toy
             [Positional (str "/tmp/sample.apk");
              OptExtract (Some (str "/tmp/out"))] Toy.toy_start
             _ _ _ (Some (str "/tmp/sample.apk", true)) _ _ _ _ _
             eq_refl eq_refl eq_refl)).
  - exact (proj2 (@main_exit_status Toy.toy
             [Positional (str "/tmp/sample.apk")] Toy.toy_start
             _ _ _ (Some (str "/tmp/sample.apk", true)) _ _ _ _ _
             eq_refl eq_refl eq_refl) (Ret tt) _ _ eq_refl).
  - exact (proj2 (@main_exit_status Toy.toy
             [Positional (str "/tmp/sample.apk");
              OptExtract (Some (str "/tmp/out"))] Toy.toy_start
             _ _ _ (Some (str "/tmp/sample.apk", true)) _ _ _ _ _
             eq_refl eq_refl eq_refl) (Ret tt) _ _ eq_refl).
Defined.

(** C3 as stated fails: the target is parsed, and [main] does not return
    0, for [os.makedirs] raises on the read-only disk and nothing catches
    it. *)
Lemma main_raises_after_a_successful_parse :
  @read_target_file readonly_toy (str "/tmp/sample.apk") true readonly_start
  = (Ret (Some (str "/tmp/sample.apk", true)), readonly_start,
     [@EvParse readonly_toy (str "/tmp/sample.apk") true])
  /\ fst (fst (@main readonly_toy
                 [Positional (str "/tmp/sample.apk"); OptExtract None]
                 readonly_start))
     = Raise (OtherException 13)
  /\ fst (fst (@main readonly_toy
                 [Positional (str "/tmp/sample.apk"); OptExtract None]
                 readonly_start))
     <> Ret 0%Z.
Proof. split; [|split]; [reflexivity | reflexivity | discriminate]. Qed.

Example main_rejects_text_file :
  @main Toy.toy [Positional (str "/tmp/notes.txt")] Toy.toy_start
  = (Ret 1%Z, Toy.toy_start,
     [@EvParse Toy.toy (str "/tmp/notes.txt") true;
      EvLog ERROR (not_an_apk_message (str "/tmp/notes.txt"))]).
Proof. reflexivity. Qed.

Example main_extracts :
  fst (fst (@main Toy.toy
              [Positional (str "/tmp/sample.apk"); OptExtract None]
              Toy.toy_start)) = Ret 0%Z
  /\ snd (@main Toy.toy
            [Positional (str "/tmp/sample.apk"); OptExtract None]
            Toy.toy_start)
     = [@EvParse Toy.toy (str "/tmp/sample.apk") true;
        EvExists (str "./sample");
        EvLog INFO (creating_message (str "./sample"));
        EvMakedirs (str "./sample");
        EvApkTool (str "/tmp/sample.apk") (str "./sample");
        EvDex2Jar (str "/tmp/sample.apk") (str "sample") (str "./sample");
        @EvExtractCertificateFile Toy.toy
          (str "/tmp/sample.apk", true) (str "./sample");
        @EvExtractDexFile Toy.toy
          (str "/tmp/sample.apk", true) (str "./sample");
        @EvHtml Toy.toy
          (str "/tmp/sample.apk", true) (str "sample") (str "./sample");
        @EvJson Toy.toy
          (str "/tmp/sample.apk", true) (str "sample") (str "./sample")].
Proof. split; reflexivity. Qed.

Example main_version_exits :
  @main Toy.toy [Positional (str "/tmp/sample.apk"); OptVersion]
    Toy.toy_start
  = (Raise (SystemExit 0),
     @Build_state Toy.toy
       {| Toy.paths := Toy.paths Toy.toy_disk;
          Toy.printed := [str "NinjaDroid 3.0"] |} INFO,
     [@EvArgparseWrite Toy.toy (VersionMessage (str "NinjaDroid 3.0"))]).
Proof. reflexivity. Qed.

Example main_needs_a_target :
  @main Toy.toy [OptVerbose] Toy.toy_start
  = (Raise (SystemExit 2),
     @Build_state Toy.toy
       {| Toy.paths := Toy.paths Toy.toy_disk;
          Toy.printed :=
            [str "error: the following arguments are required"] |} INFO,
     [@EvArgparseWrite Toy.toy RequiredMissing]).
Proof. reflexivity. Qed.





(** The text printed for the sample package, as [json.dumps] lays it
    out: sorted keys, four spaces a level. *)
Example dumps_sample_package :
  Json.dumps (package_mapping sample_renderers sample_package)
  = str "{" ++ [10%N]
    ++ str "    " ++ Json.quote (str "cert") ++ str ": []," ++ [10%N]
    ++ str "    " ++ Json.quote (str "dex") ++ str ": null," ++ [10%N]
    ++ str "    " ++ Json.quote (str "file_name") ++ str ": "
         ++ Json.quote (str "sample.apk") ++ str "," ++ [10%N]
    ++ str "    " ++ Json.quote (str "manifest") ++ str ": 7," ++ [10%N]
    ++ str "    " ++ Json.quote (str "md5") ++ str ": "
         ++ Json.quote (str "0f") ++ str "," ++ [10%N]
    ++ str "    " ++ Json.quote (str "sha1") ++ str ": "
         ++ Json.quote (str "1e") ++ str "," ++ [10%N]
    ++ str "    " ++ Json.quote (str "sha256") ++ str ": "
         ++ Json.quote (str "2d") ++ str "," ++ [10%N]
    ++ str "    " ++ Json.quote (str "shell_commands") ++ str ": [],"
         ++ [10%N]
    ++ str "    " ++ Json.quote (str "size") ++ str ": 1024," ++ [10%N]
    ++ str "    " ++ Json.quote (str "urls") ++ str ": [" ++ [10%N]
    ++ str "        " ++ Json.quote (str "http://a.b") ++ [10%N]
    ++ str "    ]" ++ [10%N]
    ++ str "}".
Proof. vm_compute. reflexivity. Qed.

(** [print_apk_info] alone: it dumps, serialises and prints, in that
    order. *)
Lemma print_apk_info_prints_the_dump `{Externals}
    (apk : APK) (s : state) m w text :
  APK_dump apk (world s) = (Ret m, w) ->
  json_dumps m = Ret text ->
  print_apk_info apk s
  = (fst (builtin_print text w),
     {| world := snd (builtin_print text w);
        logger_level := logger_level s |},
     [EvDump apk; EvPrint text]).
Proof.
  intros Em Ej. rewrite print_apk_info_run, Em, Ej. reflexivity.
Qed.

Lemma extract_apk_info_to_directory_run `{Externals}
    (apk : APK) (filepath filename od : pystr) (s : state) :
  extract_apk_info_to_directory apk filepath filename od s =
  match create_output_directory_if_needed
          (effective_output_directory filename od) s with
  | (Raise e, sc, pre) => (Raise e, sc, pre)
  | (Ret _, sc, pre) =>
      match run_steps
              (collaborator_steps apk filepath filename
                 (effective_output_directory filename od))
              (world sc) with
      | (r, w, evs) =>
          (r, {| world := w; logger_level := logger_level sc |}, pre ++ evs)
      end
  end.
Proof.
  unfold extract_apk_info_to_directory.
  set (d := effective_output_directory filename od).
  unfold bind at 1.
  destruct (create_output_directory_if_needed d s) as [[[u|e] sc] pre];
    [|reflexivity].
  unfold bind, call. simpl.
  destruct (LaunchApkTool_execute filepath d (world sc)) as [[[]|e1] w1];
    [|reflexivity]. simpl.
  destruct (LaunchDex2Jar_execute filepath filename d w1) as [[[]|e2] w2];
    [|reflexivity]. simpl.
  destruct (ExtractCertificateFile_execute apk d w2) as [[[]|e3] w3];
    [|reflexivity]. simpl.
  destruct (ExtractDexFile_execute apk d w3) as [[[]|e4] w4];
    [|reflexivity]. simpl.
  destruct (GetApkInfoInHtml_execute apk filename d w4) as [[[]|e5] w5];
    [|reflexivity]. simpl.
  destruct (GetApkInfoInJson_execute apk filename d w5) as [[[]|e6] w6];
    reflexivity.
Qed.

(** C5, as amended.  After the directory step an extraction runs the
    six use cases in source order, each with the arguments of the source
    and on the world the one before left, and it stops at the first that
    raises: the use cases called are an initial segment of the six; they
    are all six, once each, when the extraction returns; and it returns
    whenever [os.makedirs] and the use cases do. *)
Theorem extraction_calls_in_order `{Externals}
    (apk : APK) (filepath filename od : pystr) (s : state) r s' evs :
  extract_apk_info_to_directory apk filepath filename od s = (r, s', evs) ->
  let d := effective_output_directory filename od in
  (forall sc pre,
      create_output_directory_if_needed d s = (Ret tt, sc, pre) ->
      r = fst (fst (run_steps
                      (collaborator_steps apk filepath filename d)
                      (world sc)))
      /\ world s'
         = snd (fst (run_steps
                       (collaborator_steps apk filepath filename d)
                       (world sc)))
      /\ evs
         = pre ++ snd (run_steps
                         (collaborator_steps apk filepath filename d)
                         (world sc)))
  /\ (exists n,
        filter is_collaborator evs
        = firstn n (collaborator_calls apk filepath filename d))
  /\ (r = Ret tt ->
      filter is_collaborator evs = collaborator_calls apk filepath filename d)
  /\ (extraction_returns -> r = Ret tt).
Proof.
  intros E d.
  destruct (extract_apk_info_to_directory_kinds _ _ _ _ _ E)
    as (_ & _ & n & Hn & H6).
  split; [|split; [now exists n|split]].
  - intros sc pre Ec. rewrite extract_apk_info_to_directory_run in E.
    fold d in E. rewrite Ec in E.
    destruct (run_steps (collaborator_steps apk filepath filename d)
                (world sc)) as [[r1 w1] evs1].
    inversion E; subst. auto.
  - intros ->. now rewrite Hn, (H6 tt eq_refl).
  - intros (Hmk & H1 & H2 & H3 & H4 & H5 & H6').
    revert E. unfold extract_apk_info_to_directory. fold d.
    unfold bind at 1. rewrite create_output_directory_if_needed_run.
    assert (Hc : exists sc pre,
               (if os_path_exists d (world s)
                then (Ret tt, s, [EvExists d])
                else (fst (os_makedirs d (world s)),
                      {| world := snd (os_makedirs d (world s));
                         logger_level := logger_level s |},
                      EvExists d :: creating_record d s ++ [EvMakedirs d]))
               = (Ret tt, sc, pre)).
    { destruct (os_path_exists d (world s)) eqn:Ex; [eauto|].
      destruct (Hmk d (world s) Ex) as (w' & ->). simpl. eauto. }
    destruct Hc as (sc & pre & ->).
    unfold bind, call. simpl.
    destruct (H1 filepath d (world sc)) as (w1 & ->). simpl.
    destruct (H2 filepath filename d w1) as (w2 & ->). simpl.
    destruct (H3 apk d w2) as (w3 & ->). simpl.
    destruct (H4 apk d w3) as (w4 & ->). simpl.
    destruct (H5 apk filename d w4) as (w5 & ->). simpl.
    destruct (H6' apk filename d w5) as (w6 & ->). simpl.
    intros E. now inversion E.
Qed.

(** C5 as stated fails: without apktool the first use case raises and
    the five others are not called. *)
Lemma extraction_stops_at_a_failing_tool :
  filter is_collaborator
    (snd (@extract_apk_info_to_directory broken_tool_toy
            (str "/tmp/sample.apk", true) (str "/tmp/sample.apk")
            (str "sample") (str "./") broken_tool_start))
  = [@EvApkTool broken_tool_toy (str "/tmp/sample.apk") (str "./sample")]
  /\ filter is_collaborator
       (snd (@extract_apk_info_to_directory broken_tool_toy
               (str "/tmp/sample.apk", true) (str "/tmp/sample.apk")
               (str "sample") (str "./") broken_tool_start))
     <> @collaborator_calls broken_tool_toy (str "/tmp/sample.apk", true)
          (str "/tmp/sample.apk") (str "sample") (str "./sample").
Proof. split; [reflexivity | discriminate]. Qed.

Lemma toy_extraction_returns : @extraction_returns Toy.toy.
Proof.
  unfold extraction_returns. simpl. repeat split; intros; try (eexists; reflexivity).
  unfold Toy.toy_makedirs.
  match goal with Hx : Toy.present _ _ = false |- _ => rewrite Hx end.
  eexists; reflexivity.
Defined.

Lemma extraction_calls_in_order_witness :
  filter is_collaborator
    (snd (@extract_apk_info_to_directory Toy.toy
            (str "/tmp/sample.apk", true) (str "/tmp/sample.apk")
            (str "sample") (str "./") Toy.toy_start))
  = @collaborator_calls Toy.toy (str "/tmp/sample.apk", true)
      (str "/tmp/sample.apk") (str "sample") (str "./sample")
  /\ fst (fst (@extract_apk_info_to_directory Toy.toy
            (str "/tmp/sample.apk", true) (str "/tmp/sample.apk")
            (str "sample") (str "./") Toy.toy_start)) = Ret tt
  /\ Toy.paths
       (@world Toy.toy
          (snd (fst (@extract_apk_info_to_directory Toy.toy
             (str "/tmp/sample.apk", true) (str "/tmp/sample.apk")
             (str "sample") (str "./") Toy.toy_start))))
     = [str "./sample/report.json"; str "./sample/report.html";
        str "./sample/classes.dex"; str "./sample/CERT.RSA";
        str "./sample/classes.jar"; str "./sample/smali";
        str "./sample"; str "/tmp/sample.apk"; str "/tmp/notes.txt"].
Proof.
  split; [|split].
  - exact (proj1 (proj2 (proj2 (@extraction_calls_in_order Toy.toy
             (str "/tmp/sample.apk", true) (str "/tmp/sample.apk")
             (str "sample") (str "./") Toy.toy_start _ _ _ eq_refl)))
             eq_refl).
  - exact (proj2 (proj2 (proj2 (@extraction_calls_in_order Toy.toy
             (str "/tmp/sample.apk", true) (str "/tmp/sample.apk")
             (str "sample") (str "./") Toy.toy_start _ _ _ eq_refl)))
             toy_extraction_returns).
  - exact (f_equal Toy.paths
             (proj1 (proj2 (proj1 (@extraction_calls_in_order Toy.toy
                (str "/tmp/sample.apk", true) (str "/tmp/sample.apk")
                (str "sample") (str "./") Toy.toy_start _ _ _ eq_refl)
                _ _ eq_refl)))).
Defined.

Lemma collaborator_calls_directory `{Externals}
    (apk : APK) filepath filename d n ev d' :
  In ev (firstn n (collaborator_calls apk filepath filename d)) ->
  event_output_directory ev = Some d' -> d' = d.
Proof.
  intros Hin. apply in_firstn in Hin. simpl in Hin.
  intuition (subst; simpl in *; congruence).
Qed.

Lemma none_is_not_some `{Externals} (evs : list event) ev d :
  Forall (fun ev => event_output_directory ev = None) evs ->
  In ev evs -> event_output_directory ev = Some d -> False.
Proof.
  intros F Hin Hd. rewrite Forall_forall in F.
  rewrite (F ev Hin) in Hd. discriminate.
Qed.

Lemma effective_output_directory_dot (filename : pystr) :
  effective_output_directory filename (str "./") = str "./" ++ filename.
Proof. reflexivity. Qed.

Lemma effective_output_directory_other (filename od : pystr) :
  od <> str "./" -> effective_output_directory filename od = od.
Proof.
  intros Hne. unfold effective_output_directory.
  now rewrite (pystr_eqb_neq Hne).
Qed.

(** C9.  On an accepted command line, the output directory carried by
    every call of a use case is [./] followed by the file name without
    its extension when [--extract] stands without a value or with the
    value [./], and the given string itself for any other value. *)
Theorem output_directory_of_the_use_cases `{Externals}
    (argv : list cli_arg) (s : state) args s0 ev0 r s' evs ev d :
  get_args argv s = (Ret args, s0, ev0) ->
  main argv s = (r, s', evs) ->
  In ev evs ->
  event_output_directory ev = Some d ->
  (extract_option argv = Some None
   \/ extract_option argv = Some (Some (str "./")) ->
   d = str "./" ++ get_apk_filename_without_extension (target args))
  /\ (forall given,
        extract_option argv = Some (Some given) ->
        given <> str "./" ->
        d = given).
Proof.
  intros Ea E Hin Hd.
  destruct (get_args_ret _ _ Ea) as (-> & -> & _ & Hdir).
  destruct (main_cases _ _ E)
    as [(xe & xs & xm & Ec & _) | (args' & ra & s2 & ev1 & ev2 & Ea' & Er & -> & H')].
  { rewrite Ea in Ec. discriminate. }
  rewrite Ea in Ea'. inversion Ea'; subst args'. clear Ea'.
  destruct (read_target_file_kinds _ _ _ Er) as (_ & _ & _ & _ & Hnone).
  apply in_app_or in Hin. destruct Hin as [Hin | Hin].
  { exfalso. exact (none_is_not_some _ Hnone Hin Hd). }
  destruct ra as [[apk|]|e];
    [| destruct H' as (_ & -> & _); destruct Hin
     | destruct H' as (_ & -> & _); destruct Hin].
  destruct H' as (ro & Eo & _). unfold output_step in Eo.
  rewrite Hdir in Eo.
  destruct (extract_option argv) as [v|]; simpl in Eo.
  2:{ destruct (print_apk_info_kinds _ _ Eo) as (_ & _ & Hnone2 & _).
      exfalso. exact (none_is_not_some _ Hnone2 Hin Hd). }
  destruct (extract_apk_info_to_directory_trace _ _ _ _ _ Eo)
    as (rc & sc & pre & n & Ec & -> & _).
  destruct (create_output_directory_if_needed_trace _ _ Ec)
    as (_ & _ & _ & Hnone2).
  apply in_app_or in Hin. destruct Hin as [Hin | Hin].
  { exfalso. exact (none_is_not_some _ Hnone2 Hin Hd). }
  rewrite (collaborator_calls_directory _ _ _ _ _ _ Hin Hd).
  split.
  - intros [Hv | Hv]; inversion Hv; subst v; simpl;
      apply effective_output_directory_dot.
  - intros given Hv Hne. inversion Hv; subst v. simpl.
    now apply effective_output_directory_other.
Qed.

Lemma output_directory_of_the_use_cases_witness :
  str "./sample" = str "./" ++ get_apk_filename_without_extension
                                 (str "/tmp/sample.apk")
  /\ str "/tmp/out" = str "/tmp/out".
Proof.
  split.
  - refine (proj1 (@output_directory_of_the_use_cases Toy.toy
             [Positional (str "/tmp/sample.apk"); OptExtract None]
             Toy.toy_start _ _ _ _ _ _
             (@EvApkTool Toy.toy (str "/tmp/sample.apk") (str "./sample"))
             (str "./sample") eq_refl eq_refl _ eq_refl)
             (or_introl eq_refl)).
    simpl. tauto.
  - refine (proj2 (@output_directory_of_the_use_cases Toy.toy
             [Positional (str "/tmp/sample.apk");
              OptExtract (Some (str "/tmp/out"))]
             Toy.toy_start _ _ _ _ _ _
             (@EvJson Toy.toy (str "/tmp/sample.apk", true) (str "sample")
                (str "/tmp/out"))
             (str "/tmp/out") eq_refl eq_refl _ eq_refl)
             (str "/tmp/out") eq_refl _).
    + simpl. tauto.
    + discriminate.
Defined.

(** C10.  [create_output_directory_if_needed] leaves the state as it
    found it when the path exists, having only looked the path up; it
    calls [os.makedirs], once and on that path, when the path does not
    exist; and in an extraction this step comes first: the trace is the
    trace of this step followed by calls of use cases only, none when
    the step raises. *)
Theorem create_output_directory_if_needed_frame `{Externals}
    (d : pystr) (s : state) :
  (os_path_exists d (world s) = true ->
   create_output_directory_if_needed d s = (Ret tt, s, [EvExists d]))
  /\ (os_path_exists d (world s) = false ->
      create_output_directory_if_needed d s
      = (fst (os_makedirs d (world s)),
         {| world := snd (os_makedirs d (world s));
            logger_level := logger_level s |},
         EvExists d :: creating_record d s ++ [EvMakedirs d]))
  /\ (forall rc sc pre,
        create_output_directory_if_needed d s = (rc, sc, pre) ->
        In (EvMakedirs d) pre -> os_path_exists d (world s) = false)
  /\ (forall apk filepath filename od r s' evs,
        d = effective_output_directory filename od ->
        extract_apk_info_to_directory apk filepath filename od s
        = (r, s', evs) ->
        exists rc sc pre post,
          create_output_directory_if_needed d s = (rc, sc, pre)
          /\ evs = pre ++ post
          /\ filter is_collaborator pre = []
          /\ filter is_collaborator post = post
          /\ (forall e, rc = Raise e -> post = [])).
Proof.
  split; [|split; [|split]].
  - intros Ex. now rewrite create_output_directory_if_needed_run, Ex.
  - intros Ex. now rewrite create_output_directory_if_needed_run, Ex.
  - intros rc sc pre. rewrite create_output_directory_if_needed_run.
    destruct (os_path_exists d (world s)); [|reflexivity].
    intros E Hin. inversion E; subst.
    destruct Hin as [Hin | []]. discriminate.
  - intros apk filepath filename od r s' evs -> E.
    destruct (extract_apk_info_to_directory_trace _ _ _ _ _ E)
      as (rc & sc & pre & n & Ec & -> & _ & Hraise).
    destruct (create_output_directory_if_needed_trace _ _ Ec) as (Hc & _).
    exists rc, sc, pre,
      (firstn n (collaborator_calls apk filepath filename
                   (effective_output_directory filename od))).
    split; [assumption|]. split; [reflexivity|].
    split; [now apply filter_none|].
    split; [apply filter_all, collaborator_calls_all|].
    intros e He. now destruct (Hraise e He) as (-> & _).
Qed.

Lemma create_output_directory_if_needed_frame_witness :
  @create_output_directory_if_needed Toy.toy (str "/tmp/sample.apk")
    Toy.toy_start
  = (Ret tt, Toy.toy_start, [@EvExists Toy.toy (str "/tmp/sample.apk")])
  /\ @create_output_directory_if_needed Toy.toy (str "./sample")
       Toy.toy_start
     = (Ret tt,
        @Build_state Toy.toy (Toy.add_path (str "./sample") Toy.toy_disk)
          INFO,
        [@EvExists Toy.toy (str "./sample");
         EvLog INFO (creating_message (str "./sample"));
         EvMakedirs (str "./sample")]).
Proof.
  split.
  - exact (proj1 (@create_output_directory_if_needed_frame Toy.toy
             (str "/tmp/sample.apk") Toy.toy_start) eq_refl).
  - exact (proj1 (proj2 (@create_output_directory_if_needed_frame Toy.toy
             (str "./sample") Toy.toy_start)) eq_refl).
Defined.

(** ** The Container Reader *)

Lemma starts_with_app (sig b : bytes) :
  ContainerReader.starts_with sig b = true <-> exists rest, b = sig ++ rest.
Proof.
  revert b. induction sig as [|x sig IH]; intros b; simpl.
  - split; [intros _; now exists b | reflexivity].
  - destruct b as [|y b].
    + split; [discriminate | intros (rest & E); discriminate].
    + rewrite andb_true_iff, IH. split.
      * intros (Hxy & rest & ->). apply byte_dec_bl in Hxy. subst.
        now exists rest.
      * intros (rest & E). injection E as -> ->. split.
        -- now apply byte_dec_lb.
        -- now exists rest.
Qed.

Lemma signature_at_has (b : bytes) (pos : nat) :
  ContainerReader.signature_at b pos = true ->
  ContainerReader.has_eocd_signature b.
Proof.
  unfold ContainerReader.signature_at. rewrite starts_with_app.
  intros (rest & E). exists (firstn pos b), rest.
  rewrite <- E. symmetry. apply firstn_skipn.
Qed.

Lemma has_signature_at (before after : bytes) :
  ContainerReader.signature_at
    (before ++ ContainerReader.eocd_signature ++ after) (length before)
  = true.
Proof.
  unfold ContainerReader.signature_at.
  rewrite skipn_app, skipn_all, Nat.sub_diag. simpl skipn.
  apply starts_with_app. now exists after.
Qed.

Lemma scan_backward_some (b : bytes) (n pos : nat) :
  ContainerReader.scan_backward b n = Some pos ->
  ContainerReader.signature_at b pos = true /\ pos < n.
Proof.
  induction n as [|n IH]; simpl; [discriminate|].
  destruct (ContainerReader.signature_at b n) eqn:E.
  - intros H. inversion H; subst. split; [assumption | lia].
  - intros H. destruct (IH H). split; [assumption | lia].
Qed.

Lemma scan_backward_none (b : bytes) (n : nat) :
  ContainerReader.scan_backward b n = None ->
  forall pos, pos < n -> ContainerReader.signature_at b pos = false.
Proof.
  induction n as [|n IH]; simpl; [intros _ pos Hlt; lia|].
  destruct (ContainerReader.signature_at b n) eqn:E; [discriminate|].
  intros H pos Hlt. destruct (Nat.eq_dec pos n) as [-> | Hne].
  - assumption.
  - apply IH; [assumption | lia].
Qed.

(** The scan finds the signature exactly when the buffer holds it. *)
Lemma find_eocd_none (b : bytes) :
  ContainerReader.find_eocd b = None <->
  ~ ContainerReader.has_eocd_signature b.
Proof.
  unfold ContainerReader.find_eocd. split.
  - intros Hn (before & after & E).
    pose proof (has_signature_at before after) as Hs. rewrite <- E in Hs.
    rewrite (scan_backward_none _ Hn) in Hs; [discriminate|].
    rewrite E, length_app. simpl. lia.
  - intros Hno.
    destruct (ContainerReader.scan_backward b (length b)) as [pos|] eqn:E;
      [|reflexivity].
    destruct (scan_backward_some _ _ E) as (Hs & _).
    destruct (Hno (signature_at_has _ _ Hs)).
Qed.

(** C7.  A buffer that does not hold the end-of-central-directory
    signature is refused by [open] with [NotAnArchive]. *)
Theorem open_without_signature (b : bytes) :
  ~ ContainerReader.has_eocd_signature b ->
  ContainerReader.open b = Err ContainerReader.NotAnArchive.
Proof.
  intros Hno. unfold ContainerReader.open.
  now rewrite (proj2 (find_eocd_none b) Hno).
Qed.

Lemma open_without_signature_witness :
  ContainerReader.open [x50; x4b; x03; x04; x00; x00]
  = Err ContainerReader.NotAnArchive.
Proof.
  apply open_without_signature.
  intros H. apply find_eocd_none in H; [exact H | reflexivity].
Defined.

(** [NotAnArchive] is kept for that case: with the signature in the
    buffer, [open] returns an archive or fails otherwise. *)
Lemma open_not_an_archive_only_without_signature (b : bytes) :
  ContainerReader.open b = Err ContainerReader.NotAnArchive ->
  ~ ContainerReader.has_eocd_signature b.
Proof.
  unfold ContainerReader.open.
  destruct (ContainerReader.find_eocd b) as [pos|] eqn:E.
  - destruct (ContainerReader.read_eocd b pos) as [[count offset]|];
      [|discriminate].
    assert (Hw : forall n c,
               ContainerReader.walk_records b n c
               <> Err ContainerReader.NotAnArchive).
    { induction n as [|n IH]; intros c; simpl; [discriminate|].
      destruct (ContainerReader.read_record b c) as [[entry next]|];
        [|discriminate].
      specialize (IH next).
      destruct (ContainerReader.walk_records b n next); [discriminate|].
      congruence. }
    specialize (Hw count offset).
    destruct (ContainerReader.walk_records b count offset);
      [discriminate | congruence].
  - intros _. now apply find_eocd_none.
Qed.

Example open_empty_archive :
  ContainerReader.open ContainerReader.empty_archive
  = Ok {| ContainerReader.buffer := ContainerReader.empty_archive;
          ContainerReader.entries := [] |}.
Proof. reflexivity. Qed.

Example open_truncated_archive :
  ContainerReader.open ContainerReader.eocd_signature
  = Err ContainerReader.TruncatedArchive.
Proof. reflexivity. Qed.

Example open_empty_buffer :
  ContainerReader.open [] = Err ContainerReader.NotAnArchive.
Proof. reflexivity. Qed.

(** ** The Package Aggregator *)

(** With the switch off no string is classified. *)
Lemma classify_disabled `{Aggregator.Decoders} table :
  Aggregator.classify table false
  = {| Aggregator.urls := []; Aggregator.shell_commands := [] |}.
Proof. reflexivity. Qed.

(** No string is in both categories. *)
Lemma classify_disjoint `{Aggregator.Decoders} table enabled t :
  In t (Aggregator.urls (Aggregator.classify table enabled)) ->
  In t (Aggregator.shell_commands (Aggregator.classify table enabled)) ->
  False.
Proof.
  destruct enabled; simpl; [|tauto].
  rewrite !filter_In. intros (_ & Hu) (_ & Hs).
  rewrite Hu in Hs. discriminate.
Qed.

(** The flag the Dex Decoder records is the check of 4.3 on the bytes
    it was given. *)
Lemma dex_decode_integrity `{Aggregator.Decoders} (b : bytes) summary :
  Aggregator.dex_decode b = Ok summary ->
  Aggregator.integrity_verified summary
  = Aggregator.check_integrity b (Aggregator.tables summary).
Proof.
  unfold Aggregator.dex_decode.
  destruct (Aggregator.dex_tables b) as [t|e]; [|discriminate].
  intros E. inversion E; subst. reflexivity.
Qed.

(** ** More on the command line *)

(** X1.  [get_args] in full.  The first [--version] or [--help] of the
    command line makes [argparse] write the version string
    [NinjaDroid 3.0] or the help and leave with status 0; otherwise no
    positional, or more than one, makes it write the usage error (the
    target is required, or the extra positionals are not recognised)
    and leave with status 2; otherwise [get_args] returns the namespace
    (the target, the directory of the last [--extract] with [./] for a
    bare one, string processing on unless [--no-string-processing] is
    given, verbose off unless [--verbose] is given) and touches
    nothing. *)
Theorem get_args_spec `{Externals} (argv : list cli_arg) (s : state) :
  get_args argv s =
  match first_exit_message argv with
  | Some message => exit_run message 0 s
  | None =>
      match positional_values argv with
      | [] => exit_run RequiredMissing 2 s
      | [t] => (Ret (namespace_of t argv), s, [])
      | _ :: extras => exit_run (Unrecognized extras) 2 s
      end
  end.
Proof.
  rewrite get_args_equation. unfold exit_run.
  destruct (first_exit_message argv) as [message|];
    [|destruct (positional_values argv) as [|t [|t' l]]];
    try reflexivity; apply parser_exit_run.
Qed.

(** X2.  When the command line is refused, all [main] does is what
    [argparse] does: the message is written (version or help, else the
    usage error) and [SystemExit] is raised with status 0 for version
    or help and 2 for a usage error; the APK parser is never called. *)
Theorem main_refused_command_line `{Externals}
    (argv : list cli_arg) (s : state) message code :
  (first_exit_message argv = Some message /\ code = 0%Z)
  \/ (first_exit_message argv = None
      /\ usage_error argv = Some message /\ code = 2%Z) ->
  main argv s = exit_run message code s.
Proof.
  intros Hr. unfold main. 
  assert (E : get_args argv s = @exit_run _ Namespace message code s).
  { rewrite get_args_equation. unfold exit_run, usage_error in *.
    destruct Hr as [(-> & ->) | (-> & Hu & ->)].
    - apply parser_exit_run.
    - destruct (positional_values argv) as [|t [|t' l]];
        inversion Hu; subst; apply parser_exit_run. }
  unfold bind. rewrite E. unfold exit_run.
  now destruct (fst (argparse_write message (world s))).
Qed.

Lemma main_refused_command_line_witness :
  @main Toy.toy [OptNoStringProcessing] Toy.toy_start
  = (Raise (SystemExit 2),
     @Build_state Toy.toy
       {| Toy.paths := Toy.paths Toy.toy_disk;
          Toy.printed :=
            [str "error: the following arguments are required"] |} INFO,
     [@EvArgparseWrite Toy.toy RequiredMissing])
  /\ @main Toy.toy
       [Positional (str "/tmp/sample.apk"); OptVersion; OptHelp]
       Toy.toy_start
     = (Raise (SystemExit 0),
        @Build_state Toy.toy
          {| Toy.paths := Toy.paths Toy.toy_disk;
             Toy.printed := [str "NinjaDroid 3.0"] |} INFO,
        [@EvArgparseWrite Toy.toy
           (VersionMessage (str "NinjaDroid 3.0"))]).
Proof.
  split.
  - exact (@main_refused_command_line Toy.toy
             [OptNoStringProcessing] Toy.toy_start RequiredMissing 2%Z
             (or_intror (conj eq_refl (conj eq_refl eq_refl)))).
  - exact (@main_refused_command_line Toy.toy
             [Positional (str "/tmp/sample.apk"); OptVersion; OptHelp]
             Toy.toy_start (VersionMessage (str "NinjaDroid 3.0")) 0%Z
             (or_introl (conj eq_refl eq_refl))).
Defined.
(** ** More on [main] *)

Lemma state_after_options_world `{Externals} args (s : state) :
  world (state_after_options args s) = world s.
Proof. reflexivity. Qed.

(** X3.  An exception of the APK parser that is no [ParsingError] is not
    caught: [main] raises it, having logged no error and done nothing
    after the call of the parser. *)
Theorem other_exceptions_propagate `{Externals}
    (argv : list cli_arg) (s : state) args s0 ev0 e w :
  get_args argv s = (Ret args, s0, ev0) ->
  APK_init (target args) (no_string_processing args) (world s)
    = (Raise e, w) ->
  isinstance_ParsingError e = false ->
  main argv s
  = (Raise e,
     {| world := w;
        logger_level := if verbose args then DEBUG else logger_level s |},
     reading_record (target args) (state_after_options args s)
       ++ [EvParse (target args) (no_string_processing args)]).
Proof.
  intros Ea Ei He.
  destruct (get_args_ret _ _ Ea) as (-> & -> & _).
  rewrite (main_run _ Ea), read_target_file_run.
  rewrite state_after_options_world, Ei. simpl.
  assert (Ha : isinstance_APKParsingError e = false)
    by (destruct e; simpl in *; congruence).
  now rewrite Ha, He.
Qed.

Lemma other_exceptions_propagate_witness :
  @main locked_toy [Positional (str "/tmp/sample.apk")] locked_start
  = (Raise (OtherException 13), locked_start,
     [@EvParse locked_toy (str "/tmp/sample.apk") true]).
Proof.
  exact (@other_exceptions_propagate locked_toy
           [Positional (str "/tmp/sample.apk")] locked_start
           _ _ _ _ _ eq_refl eq_refl eq_refl).
Defined.

(** X4.  On an accepted command line [main] returns 1 exactly when the
    APK parser raised a [ParsingError] (an [APKParsingError] included),
    and it returns no status other than 0 and 1. *)
Theorem main_returns_one_iff_parsing_error `{Externals}
    (argv : list cli_arg) (s : state) args s0 ev0 r s' evs :
  get_args argv s = (Ret args, s0, ev0) ->
  main argv s = (r, s', evs) ->
  (r = Ret 1%Z <->
   exists e,
     fst (APK_init (target args) (no_string_processing args) (world s))
       = Raise e
     /\ isinstance_ParsingError e = true)
  /\ (forall code, r = Ret code -> code = 0%Z \/ code = 1%Z).
Proof.
  intros Ea E.
  destruct (get_args_ret _ _ Ea) as (-> & -> & _).
  rewrite (main_run _ Ea), read_target_file_run in E.
  rewrite state_after_options_world in E. simpl in E.
  destruct (fst (APK_init (target args) (no_string_processing args)
                   (world s))) as [apk|e].
  - match type of E with
    | match ?x with _ => _ end = _ => destruct x as [[[u|e] s3] ev2]
    end; inversion E; subst; split;
      try (split; [discriminate | intros (e' & He' & _); discriminate]);
      intros code Hc; inversion Hc; auto.
  - destruct (isinstance_APKParsingError e) eqn:Ha;
      [|destruct (isinstance_ParsingError e) eqn:Hp].
    + inversion E; subst. split.
      * split; [intros _ | reflexivity]. exists e. split; [reflexivity|].
        now destruct e.
      * intros code Hc. inversion Hc. auto.
    + inversion E; subst. split.
      * split; [intros _ | reflexivity]. now exists e.
      * intros code Hc. inversion Hc. auto.
    + inversion E; subst. split.
      * split; [discriminate|]. intros (e' & He' & Hp').
        inversion He'; subst. congruence.
      * intros code Hc. discriminate.
Qed.

Lemma main_returns_one_iff_parsing_error_witness :
  (exists e,
      fst (Toy.toy_init (str "/tmp/missing.apk") true Toy.toy_disk) = Raise e
      /\ isinstance_ParsingError e = true)
  /\ (1 = 0 \/ 1 = 1)%Z.
Proof.
  split.
  - exact (proj1 (proj1 (@main_returns_one_iff_parsing_error Toy.toy
             [Positional (str "/tmp/missing.apk")] Toy.toy_start
             _ _ _ _ _ _ eq_refl eq_refl)) eq_refl).
  - exact (proj2 (@main_returns_one_iff_parsing_error Toy.toy
             [Positional (str "/tmp/missing.apk")] Toy.toy_start
             _ _ _ _ _ _ eq_refl eq_refl) 1%Z eq_refl).
Defined.

Lemma creating_record_no_debug `{Externals} d (s : state) :
  filter is_debug (creating_record d s) = [].
Proof.
  unfold creating_record.
  now destruct (level_value (logger_level s) <=? level_value INFO)%Z.
Qed.

Lemma output_step_no_debug `{Externals} args (apk : APK) (s : state)
    r s' evs :
  output_step args apk s = (r, s', evs) -> filter is_debug evs = [].
Proof.
  unfold output_step. destruct (target_output_directory args) as [d|].
  - intros E.
    destruct (extract_apk_info_to_directory_trace _ _ _ _ _ E)
      as (rc & sc & pre & n & Ec & -> & _).
    rewrite create_output_directory_if_needed_run in Ec.
    rewrite filter_app. 
    assert (Hcalls :
      filter is_debug
        (firstn n (collaborator_calls apk (target args)
                     (get_apk_filename_without_extension (target args))
                     (effective_output_directory
                        (get_apk_filename_without_extension (target args))
                        d))) = []).
    { apply filter_none. eapply Forall_impl;
        [|apply collaborator_calls_all]. intros ev. now destruct ev. }
    rewrite Hcalls, app_nil_r.
    destruct (os_path_exists _ _); inversion Ec; subst; [reflexivity|].
    simpl. now rewrite filter_app, creating_record_no_debug.
  - rewrite print_apk_info_run. simpl.
    destruct (APK_dump apk (world s)) as [[m|e] w];
      [destruct (json_dumps m)|]; intros E; inversion E; reflexivity.
Qed.

(** X5.  With the logger at [INFO], as [logging.basicConfig] sets it,
    the [DEBUG] records of a run of [main] on an accepted command line
    are the one record [Reading <target>...] when [--verbose] is given,
    and none otherwise. *)
Theorem debug_records_need_verbose `{Externals}
    (argv : list cli_arg) (s : state) args s0 ev0 r s' evs :
  get_args argv s = (Ret args, s0, ev0) ->
  logger_level s = INFO ->
  main argv s = (r, s', evs) ->
  filter is_debug evs
  = if verbose args
    then [EvLog DEBUG (reading_message (target args))]
    else [].
Proof.
  intros Ea Hl E.
  destruct (get_args_ret _ _ Ea) as (-> & -> & _).
  destruct (main_cases _ _ E)
    as [(xe & xs & xm & Ec & _) | (args' & ra & s2 & ev1 & ev2 & Ea' & Er & -> & H')].
  { rewrite Ea in Ec. discriminate. }
  rewrite Ea in Ea'. inversion Ea'; subst args'. clear Ea'.
  assert (H2 : filter is_debug ev2 = []).
  { destruct ra as [[apk|]|e].
    - destruct H' as (ro & Eo & _). eapply output_step_no_debug; eauto.
    - now destruct H' as (_ & -> & _).
    - now destruct H' as (_ & -> & _). }
  rewrite filter_app, H2, app_nil_r.
  rewrite read_target_file_run in Er. simpl in Er.
  assert (H1 : filter is_debug
                 (reading_record (target args) (state_after_options args s))
               = if verbose args
                 then [EvLog DEBUG (reading_message (target args))]
                 else []).
  { unfold reading_record, state_after_options. simpl.
    destruct (verbose args); [reflexivity | now rewrite Hl]. }
  destruct (fst (APK_init _ _ _)) as [apk|e];
    [|destruct (isinstance_APKParsingError e);
      [|destruct (isinstance_ParsingError e)]];
    inversion Er; subst; rewrite filter_app, H1; simpl;
    now rewrite app_nil_r.
Qed.

Lemma debug_records_need_verbose_witness :
  filter is_debug
    (snd (@main Toy.toy [OptVerbose; Positional (str "/tmp/sample.apk")]
            Toy.toy_start))
  = [EvLog DEBUG (reading_message (str "/tmp/sample.apk"))]
  /\ filter is_debug
       (snd (@main Toy.toy
               [Positional (str "/tmp/sample.apk"); OptExtract None]
               Toy.toy_start))
     = [].
Proof.
  split.
  - exact (@debug_records_need_verbose Toy.toy
             [OptVerbose; Positional (str "/tmp/sample.apk")] Toy.toy_start
             _ _ _ _ _ _ eq_refl eq_refl eq_refl).
  - exact (@debug_records_need_verbose Toy.toy
             [Positional (str "/tmp/sample.apk"); OptExtract None]
             Toy.toy_start _ _ _ _ _ _ eq_refl eq_refl eq_refl).
Defined.

(** ** More on the file name *)

Lemma basename_from_without_separator (p acc : pystr) :
  ~ In PosixPath.sep p -> PosixPath.basename_from acc p = acc.
Proof.
  induction p as [|c p IH]; simpl; [reflexivity|]. intros Hn.
  destruct (N.eqb_spec c PosixPath.sep) as [-> | _]; [tauto|].
  apply IH. tauto.
Qed.

Lemma basename_from_after_separator (d b : pystr) :
  d <> [] -> last d 0%N = PosixPath.sep -> ~ In PosixPath.sep b ->
  forall acc, PosixPath.basename_from acc (d ++ b) = b.
Proof.
  intros Hd Hl Hb. induction d as [|c d IH]; [contradiction|].
  intros acc. destruct d as [|c' d].
  - simpl in Hl. subst c. simpl. rewrite ?N.eqb_refl.
    now apply basename_from_without_separator.
  - assert (Hl' : last (c' :: d) 0%N = PosixPath.sep) by exact Hl.
    assert (IH' := IH ltac:(discriminate) Hl').
    change ((c :: c' :: d) ++ b) with (c :: ((c' :: d) ++ b)).
    simpl PosixPath.basename_from at 1.
    destruct (N.eqb c PosixPath.sep); apply IH'.
Qed.

(** The base name of a directory part followed by a name is the name. *)
Lemma basename_app (d b : pystr) :
  d = [] \/ last d 0%N = PosixPath.sep ->
  ~ In PosixPath.sep b ->
  PosixPath.basename (d ++ b) = b.
Proof.
  intros Hd Hb. unfold PosixPath.basename.
  destruct d as [|c d].
  - simpl. now apply basename_from_without_separator.
  - destruct Hd as [Hd | Hd]; [discriminate|].
    apply basename_from_after_separator; [discriminate | assumption..].
Qed.

Lemma matches_dot_apk_shape (ext : pystr) :
  Forall2 (fun p c => Re.char_match_ic p c = true) Re.dot_apk ext ->
  length ext = 4 /\ ~ In PosixPath.sep ext.
Proof.
  intros F. unfold Re.dot_apk in F. simpl in F.
  inversion F as [|p1 c1 l1 e1 H1 F1]; subst.
  inversion F1 as [|p2 c2 l2 e2 H2 F2]; subst.
  inversion F2 as [|p3 c3 l3 e3 H3 F3]; subst.
  inversion F3 as [|p4 c4 l4 e4 H4 F4]; subst.
  inversion F4; subst. split; [reflexivity|].
  simpl. intros [E | [E | [E | [E | []]]]]; subst;
    [discriminate H1 | discriminate H2 | discriminate H3 | discriminate H4].
Qed.

(** X6.  For a path made of a directory part (empty or ending in [/]),
    a name without [/] and an extension that reads [.apk] in any case,
    the file name returned is the name: the extension is what is
    removed. *)
Theorem filename_strips_apk_extension (d name ext : pystr) :
  d = [] \/ last d 0%N = PosixPath.sep ->
  ~ In PosixPath.sep name ->
  Forall2 (fun p c => Re.char_match_ic p c = true) Re.dot_apk ext ->
  get_apk_filename_without_extension (d ++ name ++ ext) = name.
Proof.
  intros Hd Hn He.
  destruct (matches_dot_apk_shape He) as (Hlen & Hsep).
  unfold get_apk_filename_without_extension.
  assert (Hs : Re.search_ic Re.dot_apk (d ++ name ++ ext) = true).
  { apply search_ic_iff. exists (d ++ name), ext, [].
    split; [now rewrite app_nil_r, app_assoc | assumption]. }
  rewrite Hs, basename_app; [|assumption|].
  - unfold slice_drop_last. rewrite length_app, Hlen.
    replace (length name + 4 - 4) with (length name + 0) by lia.
    rewrite firstn_app_2. simpl. apply app_nil_r.
  - intros Hin. apply in_app_or in Hin. tauto.
Qed.

Lemma filename_strips_apk_extension_witness :
  get_apk_filename_without_extension
    (str "/sdcard/Download/" ++ str "Maps" ++ str ".ApK")
  = str "Maps".
Proof.
  apply filename_strips_apk_extension.
  - right. reflexivity.
  - simpl. intros H. repeat (destruct H as [H | H]; [discriminate H|]).
    exact H.
  - repeat constructor.
Defined.

(** X7.  The file name returned never holds a [/], and it is never
    longer than the base name of the path. *)
Theorem filename_has_no_separator (filepath : pystr) :
  ~ In PosixPath.sep (get_apk_filename_without_extension filepath)
  /\ length (get_apk_filename_without_extension filepath)
     <= length (PosixPath.basename filepath).
Proof.
  destruct (basename_spec filepath) as (d & _ & _ & Hn).
  unfold get_apk_filename_without_extension.
  destruct (Re.search_ic Re.dot_apk filepath); [|split; [assumption | lia]].
  destruct (slice_drop_last_split 4 (PosixPath.basename filepath))
    as (tail & E & _).
  split.
  - intros Hin. apply Hn. rewrite E. apply in_or_app. now left.
  - rewrite E at 2. rewrite length_app. lia.
Qed.

(** ** More on the two output steps *)

(** X8.  An extraction starts by looking the output directory up; it
    calls [os.makedirs] at most once, on that same directory and only
    after a failed lookup; no other path is looked up or created. *)
Theorem directory_step_of_an_extraction `{Externals}
    (apk : APK) (filepath filename od : pystr) (s : state) r s' evs :
  extract_apk_info_to_directory apk filepath filename od s = (r, s', evs) ->
  let d := effective_output_directory filename od in
  (exists rest, evs = EvExists d :: rest)
  /\ filter is_directory_step evs
     = if os_path_exists d (world s)
       then [EvExists d]
       else [EvExists d; EvMakedirs d].
Proof.
  intros E d.
  destruct (extract_apk_info_to_directory_trace _ _ _ _ _ E)
    as (rc & sc & pre & n & Ec & -> & _).
  fold d in Ec |- *.
  assert (Hcalls :
    filter is_directory_step
      (firstn n (collaborator_calls apk filepath filename d)) = []).
  { apply filter_none. eapply Forall_impl; [|apply collaborator_calls_all].
    intros ev. now destruct ev. }
  rewrite filter_app, Hcalls, app_nil_r.
  rewrite create_output_directory_if_needed_run in Ec.
  destruct (os_path_exists d (world s)); inversion Ec; subst.
  - split; [eexists; reflexivity | reflexivity].
  - split; [eexists; reflexivity|].
    simpl. rewrite filter_app. simpl.
    assert (Hlog : filter is_directory_step (creating_record d s) = []).
    { apply filter_none. eapply Forall_impl; [|apply creating_record_is_log].
      intros ev. now destruct ev. }
    now rewrite Hlog.
Qed.

Lemma directory_step_of_an_extraction_witness :
  filter is_directory_step
    (snd (@extract_apk_info_to_directory Toy.toy
            (str "/tmp/sample.apk", true) (str "/tmp/sample.apk")
            (str "sample") (str "./") Toy.toy_start))
  = [@EvExists Toy.toy (str "./sample"); EvMakedirs (str "./sample")].
Proof.
  exact (proj2 (@directory_step_of_an_extraction Toy.toy
           (str "/tmp/sample.apk", true) (str "/tmp/sample.apk")
           (str "sample") (str "./") Toy.toy_start _ _ _ eq_refl)).
Defined.

(** X9.  [print_apk_info] prints at most once, and only what
    [json.dumps] returned for the mapping of [dump]: when [dump] or
    [json.dumps] raises, the exception goes through, nothing is printed
    and the world is as [dump] left it. *)
Theorem print_apk_info_failures `{Externals}
    (apk : APK) (s : state) r s' evs :
  print_apk_info apk s = (r, s', evs) ->
  (forall e w,
      APK_dump apk (world s) = (Raise e, w) ->
      r = Raise e /\ world s' = w /\ filter is_print evs = [])
  /\ (forall m w e,
        APK_dump apk (world s) = (Ret m, w) ->
        json_dumps m = Raise e ->
        r = Raise e /\ world s' = w /\ filter is_print evs = [])
  /\ (forall text,
        In (EvPrint text) evs ->
        filter is_print evs = [EvPrint text]
        /\ exists m w,
             APK_dump apk (world s) = (Ret m, w)
             /\ json_dumps m = Ret text).
Proof.
  rewrite print_apk_info_run. simpl.
  destruct (APK_dump apk (world s)) as [[m|e] w] eqn:Ed.
  - destruct (json_dumps m) as [text|e] eqn:Ej;
      intros E; inversion E; subst; (split; [|split]).
    + intros e w' He. discriminate.
    + intros m' w' e Hm He. inversion Hm; subst. congruence.
    + intros text' [Hin | [Hin | []]]; [discriminate|].
      inversion Hin; subst. split; [reflexivity|]. now exists m, w.
    + intros e' w' He. discriminate.
    + intros m' w' e' Hm He. inversion Hm; subst.
      rewrite Ej in He. inversion He; subst. auto.
    + intros text' [Hin | []]. discriminate.
  - intros E; inversion E; subst. split; [|split].
    + intros e' w' He. inversion He; subst. auto.
    + intros m' w' e' Hm. discriminate.
    + intros text' [Hin | []]. discriminate.
Qed.

Lemma print_apk_info_failures_witness :
  filter is_print
    (snd (@print_apk_info Toy.toy (str "/tmp/sample.apk", false)
            Toy.toy_start))
  = [EvPrint (str "{/tmp/sample.apk}")]
  /\ exists m w,
       @APK_dump Toy.toy (str "/tmp/sample.apk", false) Toy.toy_disk
       = (Ret m, w)
       /\ @json_dumps Toy.toy m = Ret (str "{/tmp/sample.apk}").
Proof.
  refine (proj2 (proj2 (@print_apk_info_failures Toy.toy
            (str "/tmp/sample.apk", false) Toy.toy_start _ _ _ eq_refl))
            (str "{/tmp/sample.apk}") _).
  simpl. right. left. reflexivity.
Defined.

Lemma extraction_when_directory_step_raises `{Externals}
    (apk : APK) (filepath filename od : pystr) (s : state) e sc pre :
  create_output_directory_if_needed
    (effective_output_directory filename od) s = (Raise e, sc, pre) ->
  extract_apk_info_to_directory apk filepath filename od s
  = (Raise e, sc, pre).
Proof.
  intros Ec. unfold extract_apk_info_to_directory.
  now rewrite (bind_raise_run _ _ _ Ec).
Qed.

(** X10.  When the output directory is missing and [os.makedirs] raises,
    [main] raises the same exception and no use case is called. *)
Theorem makedirs_failure_aborts `{Externals}
    (argv : list cli_arg) (s : state) args s0 ev0 od apk s2 ev1 e w
    r s' evs :
  get_args argv s = (Ret args, s0, ev0) ->
  target_output_directory args = Some od ->
  read_target_file (target args) (no_string_processing args)
    (state_after_options args s) = (Ret (Some apk), s2, ev1) ->
  let d :=
    effective_output_directory
      (get_apk_filename_without_extension (target args)) od in
  os_path_exists d (world s2) = false ->
  os_makedirs d (world s2) = (Raise e, w) ->
  main argv s = (r, s', evs) ->
  r = Raise e /\ world s' = w /\ filter is_collaborator evs = [].
Proof.
  intros Ea Hod Er d Hx Hm E.
  destruct (get_args_ret _ _ Ea) as (-> & -> & _).
  assert (Ec : create_output_directory_if_needed d s2
               = (Raise e, {| world := w; logger_level := logger_level s2 |},
                  EvExists d :: creating_record d s2 ++ [EvMakedirs d])).
  { now rewrite create_output_directory_if_needed_run, Hx, Hm. }
  destruct (create_output_directory_if_needed_trace _ _ Ec) as (Hc & _).
  rewrite (main_run _ Ea), Er, Hod in E.
  rewrite (extraction_when_directory_step_raises apk (target args) _ _ _ Ec)
    in E.
  destruct (read_target_file_kinds _ _ _ Er) as (_ & _ & _ & Hc1 & _).
  inversion E; subst.
  rewrite filter_app, Hc1, (filter_none _ Hc). auto.
Qed.

Lemma makedirs_failure_aborts_witness :
  fst (fst (@main readonly_toy
              [Positional (str "/tmp/sample.apk"); OptExtract None]
              readonly_start)) = Raise (OtherException 13)
  /\ world (snd (fst (@main readonly_toy
              [Positional (str "/tmp/sample.apk"); OptExtract None]
              readonly_start))) = Toy.toy_disk
  /\ filter is_collaborator
       (snd (@main readonly_toy
               [Positional (str "/tmp/sample.apk"); OptExtract None]
               readonly_start)) = [].
Proof.
  exact (@makedirs_failure_aborts readonly_toy
           [Positional (str "/tmp/sample.apk"); OptExtract None]
           readonly_start _ _ _ (str "./") (str "/tmp/sample.apk", true)
           _ _ (OtherException 13) Toy.toy_disk _ _ _
           eq_refl eq_refl eq_refl eq_refl eq_refl eq_refl).
Defined.

(** X11.  On an accepted command line the first thing [main] does to
    the world, logging aside, is to call the APK parser on the target:
    nothing is dumped, printed, looked up, created or launched before. *)
Theorem main_parses_first `{Externals}
    (argv : list cli_arg) (s : state) args s0 ev0 r s' evs :
  get_args argv s = (Ret args, s0, ev0) ->
  main argv s = (r, s', evs) ->
  exists rest,
    filter (fun ev => negb (is_log ev)) evs
    = EvParse (target args) (no_string_processing args) :: rest
    /\ filter is_parse rest = [].
Proof.
  intros Ea E.
  destruct (get_args_ret _ _ Ea) as (-> & -> & _).
  destruct (main_cases _ _ E)
    as [(xe & xs & xm & Ec & _) | (args' & ra & s2 & ev1 & ev2 & Ea' & Er & -> & H')].
  { rewrite Ea in Ec. discriminate. }
  rewrite Ea in Ea'. inversion Ea'; subst args'. clear Ea'.
  destruct (read_target_file_trace _ _ _ Er) as (Ht & _).
  exists (filter (fun ev => negb (is_log ev)) ev2).
  rewrite filter_app, Ht. split; [reflexivity|].
  rewrite <- filter_refine by (intros x; now destruct x).
  destruct ra as [[apk|]|e].
  - destruct H' as (ro & Eo & _). eapply output_step_kinds; eauto.
  - now destruct H' as (_ & -> & _).
  - now destruct H' as (_ & -> & _).
Qed.

Lemma main_parses_first_witness :
  exists rest,
    filter (fun ev => negb (is_log ev))
      (snd (@main Toy.toy
              [OptVerbose; Positional (str "/tmp/sample.apk");
               OptExtract None] Toy.toy_start))
    = @EvParse Toy.toy (str "/tmp/sample.apk") true :: rest
    /\ filter is_parse rest = [].
Proof.
  exact (@main_parses_first Toy.toy
           [OptVerbose; Positional (str "/tmp/sample.apk"); OptExtract None]
           Toy.toy_start _ _ _ _ _ _ eq_refl eq_refl).
Defined.

(** X12.  When [.apk] occurs in the path and the base name has at most
    four characters, the file name is empty, and an extraction asked
    for with a bare [--extract] goes to [./] itself. *)
Theorem short_names_extract_in_place (filepath : pystr) :
  occurs_ic Re.dot_apk filepath ->
  length (PosixPath.basename filepath) <= 4 ->
  get_apk_filename_without_extension filepath = []
  /\ effective_output_directory
       (get_apk_filename_without_extension filepath)
       (stored_directory None)
     = str "./".
Proof.
  intros Ho Hl. apply search_ic_iff in Ho.
  assert (E : get_apk_filename_without_extension filepath = []).
  { unfold get_apk_filename_without_extension, slice_drop_last.
    rewrite Ho.
    replace (length (PosixPath.basename filepath) - 4) with 0 by lia.
    reflexivity. }
  split; [assumption|]. now rewrite E.
Qed.

Lemma short_names_extract_in_place_witness :
  get_apk_filename_without_extension (str "/tmp/.apk") = []
  /\ effective_output_directory
       (get_apk_filename_without_extension (str "/tmp/.apk"))
       (stored_directory None)
     = str "./".
Proof.
  apply short_names_extract_in_place.
  - apply search_ic_iff. reflexivity.
  - simpl. lia.
Defined.
